(** * PythonInterpreterTool: a shallow embedding of
    [verl/tools/python_interpreter.py]

    The module runs a Python snippet in a child process, captures its two
    output streams, and returns a bounded text envelope together with a
    reward.  The embedding follows the source function by function:

    - Python [str] values are lists of Unicode code points;
    - the methods live in a state-and-exception monad over the host
      (files of the temporary directory, randomness);
    - the tool object is a record holding [_timeout] and the session
      dictionary [_state], a [gmap];
    - what the module borrows from the interpreter and the operating system
      ([compile], [textwrap.dedent], the temporary file, the child process,
      [uuid4]) is a field of the [Host] record. *)

From Stdlib Require Import ZArith NArith List Ascii String DecimalString PrimFloat Lia.
From stdpp Require Import base option list gmap fin_maps.
Import ListNotations.

Set Warnings "-inexact-float".

#[local] Open Scope N_scope.
#[local] Open Scope list_scope.

(** ** Python strings *)

Module PyStr.

(** A Python [str] is a sequence of code points. *)
Definition pystr : Type := list N.

(** An ASCII literal of the source, as a [pystr]. *)
Definition lit (s : string) : pystr :=
  List.map N_of_ascii (list_ascii_of_string s).

Definition chr_LF : N := 10.
Definition chr_semicolon : N := 59.
Definition chr_equals : N := 61.
Definition chr_quote : N := 34.
Definition chr_backslash : N := 92.

(** Truthiness of a string: [if s] holds for the non-empty ones. *)
Definition truthy (s : pystr) : bool :=
  match s with [] => false | _ :: _ => true end.

(** [str.isspace] on one character: the code points CPython's
    [_PyUnicode_IsWhitespace] accepts. *)
Definition isspace (c : N) : bool :=
  (9 <=? c) && (c <=? 13)
  || (28 <=? c) && (c <=? 32)
  || (c =? 133) || (c =? 160) || (c =? 5760)
  || (8192 <=? c) && (c <=? 8202)
  || (c =? 8232) || (c =? 8233) || (c =? 8239) || (c =? 8287)
  || (c =? 12288).

(** [s.lstrip()], [s.rstrip()], [s.strip()] with no argument. *)
Fixpoint lstrip (s : pystr) : pystr :=
  match s with
  | c :: s' => if isspace c then lstrip s' else s
  | [] => []
  end.

Definition rstrip (s : pystr) : pystr := rev (lstrip (rev s)).

Definition strip (s : pystr) : pystr := rstrip (lstrip s).

(** [prefix in s] at position 0: [s.startswith(prefix)]. *)
Fixpoint startswith (s prefix : pystr) : bool :=
  match prefix, s with
  | [], _ => true
  | p :: prefix', c :: s' => (p =? c) && startswith s' prefix'
  | _ :: _, [] => false
  end.

(** [needle in s] for strings: substring search. *)
Fixpoint contains (s needle : pystr) : bool :=
  startswith s needle ||
  match s with
  | [] => false
  | _ :: s' => contains s' needle
  end.

(** [c in s] for a one-character needle. *)
Definition contains_char (s : pystr) (c : N) : bool :=
  existsb (N.eqb c) s.

(** [s.replace(old, new)] for one-character [old] and [new]. *)
Definition replace_char (s : pystr) (old new : N) : pystr :=
  List.map (fun c => if c =? old then new else c) s.

(** [s.split(sep)] for a one-character separator: always at least one
    piece, the pieces between consecutive separators. *)
Fixpoint split_char (s : pystr) (sep : N) : list pystr :=
  match s with
  | [] => [[]]
  | c :: s' =>
      if c =? sep then [] :: split_char s' sep
      else match split_char s' sep with
           | piece :: pieces => (c :: piece) :: pieces
           | [] => [[c]]
           end
  end.

(** [s[:n]]. *)
Definition slice_to (n : nat) (s : pystr) : pystr := firstn n s.

End PyStr.
Export PyStr.

(** ** Exceptions, results and the host *)

(** The exception classes the module meets.  [SyntaxError] stands for the
    class and its subclasses ([IndentationError], [TabError]). *)
Inductive exn : Type :=
| SyntaxError
| ValueError
| UnicodeEncodeError
| UnicodeDecodeError
| RecursionError
| MemoryError
| FileNotFoundError
| IsADirectoryError
| PermissionError
| OSError
| TimeoutExpired.

#[global] Instance exn_eq_dec : EqDecision exn.
Proof. solve_decision. Defined.

Inductive Result (A : Type) : Type :=
| Return (a : A)
| Raise (e : exn).
Arguments Return {A} a.
Arguments Raise {A} e.

(** A dynamically typed value, as far as [parameters] and the session
    records need one. *)
Inductive Any : Type :=
| PyNone
| PyBool (b : bool)
| PyInt (z : Z)
| PyStr (s : pystr).

(** [str(x)], for an [int] within the interpreter's limit on the digits of
    a conversion (4300 by default; beyond it [str] raises [ValueError],
    which this function does not). *)
Definition py_str (x : Any) : pystr :=
  match x with
  | PyNone => lit "None"
  | PyBool true => lit "True"
  | PyBool false => lit "False"
  | PyInt z => lit (NilZero.string_of_int (Z.to_int z))
  | PyStr s => s
  end.

(** What a path of the temporary directory names: a regular file with its
    text, or a directory. *)
Inductive node : Type :=
| Regular (text : pystr)
| Directory.

(** The bytes a child writes to a pipe. *)
Definition bytes : Type := list N.

(** The part of the host the module can observe: the temporary directory
    (path to node), and how many random identifiers have been drawn. *)
Record World : Type := mkWorld {
  files : gmap pystr node;
  draws : nat
}.

(** What [subprocess.run(["python3", path], capture_output=True, text=True,
    timeout=..., check=False)] can do. *)
Inductive child : Type :=
| Exited (stdout stderr : bytes) (returncode : Z)
    (* the child ran to completion, with what it wrote to the two pipes;
       [text=True] has the bytes decoded before [run] returns *)
| Expired (stdout stderr : bytes)
    (* the deadline passed: the child is killed and [TimeoutExpired] is
       raised, carrying what had been captured so far *)
| Failed (e : exn).
    (* the child could not be started: [subprocess.run] raised, for
       instance [FileNotFoundError] when there is no [python3] *)

(** The interpreter and operating system under the module. *)
Record Host : Type := mkHost {
  (* the parser on an encodable source in 'eval' mode: [None] when the
     text is an expression, else the exception, [SyntaxError] when it is
     outside the grammar *)
  parse_eval : pystr -> option exn;
  (* [textwrap.dedent] *)
  dedent : pystr -> pystr;
  (* [tempfile.NamedTemporaryFile("w", suffix=".py", delete=False)]: the
     name of the file created, or the error *)
  tmp_create : World -> Result pystr;
  (* whether the locale's encoding can encode a text *)
  encodable : pystr -> bool;
  (* the child process on a script path with a timeout: its outcome and
     the temporary directory it leaves *)
  python3 : pystr -> Z -> World -> child * gmap pystr node;
  (* the locale's decoding of captured bytes, newlines translated: [None]
     where the bytes are not valid *)
  decode : bytes -> option pystr;
  (* whether the directory lets a regular file at a path be removed *)
  unlink_permitted : pystr -> World -> bool;
  (* [str(uuid4())] at the n-th draw *)
  uuid4 : nat -> pystr
}.

(** ** The monad of the module's effects

    A computation reads and updates a state [S] and either returns or
    raises; the state survives an exception, as in Python. *)

Definition M (S A : Type) : Type := S -> Result A * S.

Definition ret {S A} (a : A) : M S A := fun s => (Return a, s).

Definition raise {S A} (e : exn) : M S A := fun s => (Raise e, s).

Definition bind {S A B} (m : M S A) (k : A -> M S B) : M S B :=
  fun s =>
    match m s with
    | (Return a, s') => k a s'
    | (Raise e, s') => (Raise e, s')
    end.

Definition get {S} : M S S := fun s => (Return s, s).

Definition modify {S} (f : S -> S) : M S unit := fun s => (Return tt, f s).

(** A pure computation that may raise, run inside the monad. *)
Definition lift_result {S A} (r : Result A) : M S A := fun s => (r, s).

(** [try: body  except cls: handler]: the handler runs for an exception of
    class [cls], any other propagates. *)
Definition try_except {S A} (body : M S A) (cls : exn) (handler : M S A)
  : M S A :=
  fun s =>
    match body s with
    | (Return a, s') => (Return a, s')
    | (Raise e, s') =>
        if decide (e = cls) then handler s' else (Raise e, s')
    end.

(** [try: body  finally: cleanup]: the cleanup always runs; its own
    exception replaces the outcome of the body. *)
Definition try_finally {S A} (body : M S A) (cleanup : M S unit) : M S A :=
  fun s =>
    match body s with
    | (r, s') =>
        match cleanup s' with
        | (Return _, s'') => (r, s'')
        | (Raise e, s'') => (Raise e, s'')
        end
    end.

Declare Scope py_scope.
Delimit Scope py_scope with py.
Notation "x <~ m ;; k" := (bind m (fun x => k))
  (at level 62, m at next level, right associativity) : py_scope.
#[local] Open Scope py_scope.

(** ** Helper utilities *)

Section Helpers.

Variable host : Host.

(** The code points U+D800..U+DFFF, which UTF-8 refuses. *)
Definition is_surrogate (c : N) : bool := (55296 <=? c) && (c <=? 57343).

(** [compile(src, "<expr>", "eval")], for its outcome only.  The source is
    encoded to UTF-8 before it is parsed, which raises on a surrogate. *)
Definition compile_eval (src : pystr) : Result unit :=
  if existsb is_surrogate src then Raise UnicodeEncodeError
  else match parse_eval host src with
       | None => Return tt
       | Some e => Raise e
       end.

(** [[ln.strip() for ln in code_nl.split("\n") if ln.strip()]]. *)
Definition logical_lines (code : pystr) : list pystr :=
  let code_nl := replace_char code chr_semicolon chr_LF in
  List.filter truthy (List.map strip (split_char code_nl chr_LF)).

(** [_maybe_wrap_print(code)]. *)
Definition _maybe_wrap_print (code : pystr) : Result pystr :=
  if contains code (lit "print(") then Return code
  else
    let lines := logical_lines code in
    match lines with
    | [] => Return code
    | _ :: _ =>
        let last := List.last lines [] in
        if contains_char last chr_equals then Return code
        else
          match compile_eval last with
          | Raise SyntaxError => Return code
          | Raise e => Raise e
          | Return _ =>
              let dedented := rstrip (dedent host code) in
              Return (dedented ++ [chr_LF] ++ lit "print(" ++ last ++ lit ")")
          end
    end.

(** The [with] block of [_run_snippet]: create the temporary file, write
    the text, close it, and keep its name. *)
Definition write_tmp (text : pystr) : M World pystr :=
  tmp_path <~ (fun w => (tmp_create host w, w)) ;;
  _ <~ modify (fun w =>
         mkWorld (<[tmp_path := Regular []]> (files w)) (draws w)) ;;
  if encodable host text
  then _ <~ modify (fun w =>
              mkWorld (<[tmp_path := Regular text]> (files w)) (draws w)) ;;
       ret tmp_path
  else raise UnicodeEncodeError.

(** [subprocess.run(["python3", tmp_path], ...)]: the decoded streams of
    a child that exited, or the exception; bytes that do not decode raise
    [UnicodeDecodeError]. *)
Definition subprocess_run (tmp_path : pystr) (timeout : Z)
  : M World (pystr * pystr) :=
  fun w =>
    match python3 host tmp_path timeout w with
    | (Exited out err _, fs) =>
        (match decode host out, decode host err with
         | Some stdout, Some stderr => Return (stdout, stderr)
         | _, _ => Raise UnicodeDecodeError
         end,
         mkWorld fs (draws w))
    | (Expired _ _, fs) => (Raise TimeoutExpired, mkWorld fs (draws w))
    | (Failed e, fs) => (Raise e, mkWorld fs (draws w))
    end.

(** [os.unlink(path)]: a regular file is removed where the directory
    permits; a missing path, a directory and a refusal raise. *)
Definition os_unlink (path : pystr) : M World unit :=
  fun w =>
    match files w !! path with
    | Some (Regular _) =>
        if unlink_permitted host path w
        then (Return tt, mkWorld (delete path (files w)) (draws w))
        else (Raise PermissionError, w)
    | Some Directory => (Raise IsADirectoryError, w)
    | None => (Raise FileNotFoundError, w)
    end.

(** [_run_snippet(code, timeout)]. *)
Definition _run_snippet (code : pystr) (timeout : Z)
  : M World (pystr * pystr) :=
  tmp_path <~ write_tmp (dedent host code) ;;
  try_finally
    (try_except
       (proc <~ subprocess_run tmp_path timeout ;;
        ret (strip (fst proc), strip (snd proc)))
       TimeoutExpired
       (ret ([], lit "Execution timed out")))
    (try_except (os_unlink tmp_path) FileNotFoundError (ret tt)).

End Helpers.

(** The world once the text has been written to the temporary file. *)
Definition written (w : World) (p text : pystr) : World :=
  mkWorld (<[p := Regular text]> (<[p := Regular []]> (files w))) (draws w).

(** The world once the child is gone and the file unlinked. *)
Definition cleaned (w : World) (p : pystr) (fs : gmap pystr node) : World :=
  mkWorld (delete p fs) (draws w).

(** The cleanup of [_run_snippet] goes through: the path is missing, or it
    names a regular file that the directory lets go. *)
Definition can_clean (host : Host) (p : pystr) (w : World) : bool :=
  match files w !! p with
  | None => true
  | Some (Regular _) => unlink_permitted host p w
  | Some Directory => false
  end.

(** The error of a cleanup that does not go through. *)
Definition unlink_error (n : option node) : exn :=
  match n with
  | Some Directory => IsADirectoryError
  | _ => PermissionError
  end.

(** What the [try] block of [_run_snippet] comes to, by the outcome of the
    child. *)
Definition try_outcome (host : Host) (c : child) : Result (pystr * pystr) :=
  match c with
  | Exited out err _ =>
      match decode host out, decode host err with
      | Some stdout, Some stderr => Return (strip stdout, strip stderr)
      | _, _ => Raise UnicodeDecodeError
      end
  | Expired _ _ => Return ([], lit "Execution timed out")
  | Failed e =>
      if decide (e = TimeoutExpired)
      then Return ([], lit "Execution timed out")
      else Raise e
  end.

(** ** [json.dumps] on a dictionary of strings *)

Module Json.

(** One lower-case hexadecimal digit. *)
Definition hex_digit (d : N) : N := if d <? 10 then 48 + d else 87 + d.

(** ['\\u{0:04x}'.format(n)] for [n < 0x10000]. *)
Definition u_escape (n : N) : pystr :=
  lit "\u" ++ [hex_digit (n / 4096 mod 16); hex_digit (n / 256 mod 16);
               hex_digit (n / 16 mod 16); hex_digit (n mod 16)].

(** The replacement of one character by [py_encode_basestring_ascii]:
    [ESCAPE_DCT] first, the characters from space to tilde as they are, and
    a [\uXXXX] escape (a surrogate pair above the basic plane) for the
    rest. *)
Definition escape_char (c : N) : pystr :=
  if c =? chr_backslash then [chr_backslash; chr_backslash]
  else if c =? chr_quote then [chr_backslash; chr_quote]
  else if c =? 8 then lit "\b"
  else if c =? 12 then lit "\f"
  else if c =? 10 then lit "\n"
  else if c =? 13 then lit "\r"
  else if c =? 9 then lit "\t"
  else if (32 <=? c) && (c <=? 126) then [c]
  else if c <? 65536 then u_escape c
  else
    let n := c - 65536 in
    let s1 := N.lor 55296 (N.land (N.shiftr n 10) 1023) in
    let s2 := N.lor 56320 (N.land n 1023) in
    u_escape s1 ++ u_escape s2.

(** The characters from space to tilde. *)
Definition printable (c : N) : bool := (32 <=? c) && (c <=? 126).

(** A string as a JSON string, [ensure_ascii=True]. *)
Definition encode_basestring_ascii (s : pystr) : pystr :=
  [chr_quote] ++ flat_map escape_char s ++ [chr_quote].

(** The items of a dictionary, joined by the default separators. *)
Fixpoint dumps_items (items : list (pystr * pystr)) : pystr :=
  match items with
  | [] => []
  | [(k, v)] =>
      encode_basestring_ascii k ++ lit ": " ++ encode_basestring_ascii v
  | (k, v) :: rest =>
      encode_basestring_ascii k ++ lit ": " ++ encode_basestring_ascii v
      ++ lit ", " ++ dumps_items rest
  end.

(** [json.dumps(d)] for a dictionary [d] from strings to strings, given as
    its items in insertion order. *)
Definition dumps (items : list (pystr * pystr)) : pystr :=
  lit "{" ++ dumps_items items ++ lit "}".

End Json.

(** ** Tool implementation *)

(** The fields of a [PythonInterpreterTool] that its methods use. *)
Record Tool : Type := mkTool {
  _timeout : Z;
  _state : gmap pystr (gmap pystr Any)
}.

(** The tool object together with the host it runs on. *)
Record Sys : Type := mkSys {
  self : Tool;
  world : World
}.

(** [str(parameters.get("code", ""))]. *)
Definition code_argument (parameters : gmap pystr Any) : pystr :=
  py_str (default (PyStr []) (parameters !! lit "code")).

Section ToolMethods.

Variable host : Host.

(** A helper's effect on the host, seen from a method. *)
Definition in_world {A} (m : M World A) : M Sys A :=
  fun s =>
    match m (world s) with
    | (r, w) => (r, mkSys (self s) w)
    end.

(** [str(uuid4())]: one more draw from the host's randomness. *)
Definition str_uuid4 : M World pystr :=
  fun w => (Return (uuid4 host (draws w)), mkWorld (files w) (S (draws w))).

(** [create(instance_id=None)]. *)
Definition create (instance_id : option pystr) : M Sys pystr :=
  iid <~ match instance_id with
         | Some s => if truthy s then ret s else in_world str_uuid4
         | None => in_world str_uuid4
         end ;;
  _ <~ modify (fun s =>
         mkSys (mkTool (_timeout (self s)) (<[iid := ∅]> (_state (self s))))
               (world s)) ;;
  ret iid.

(** [execute(instance_id, parameters)]. *)
Definition execute (instance_id : pystr) (parameters : gmap pystr Any)
  : M Sys (pystr * float * gmap pystr Any) :=
  let code := code_argument parameters in
  wrapped <~ lift_result (_maybe_wrap_print host code) ;;
  s <~ get ;;
  proc <~ in_world (_run_snippet host wrapped (_timeout (self s))) ;;
  let stdout := fst proc in
  let stderr := snd proc in
  let reward := if truthy stderr then (-0.1)%float else 0%float in
  let payload :=
    Json.dumps [(lit "stdout", stdout); (lit "stderr", stderr)] in
  ret (slice_to 3000 (lit "<tool_output>" ++ payload ++ lit "</tool_output>"),
       reward, ∅).

(** [calc_reward(instance_id)]. *)
Definition calc_reward (instance_id : pystr) : M Sys float :=
  ret 0%float.

(** [release(instance_id)]: [self._state.pop(instance_id, None)]. *)
Definition release (instance_id : pystr) : M Sys unit :=
  modify (fun s =>
    mkSys (mkTool (_timeout (self s)) (delete instance_id (_state (self s))))
          (world s)).

End ToolMethods.

(** An execution that returns: the rewriter returned [wrapped], the runner
    returned the pair [(stdout, stderr)] on it, and [execute] returned the
    reward [reward]. *)
Definition executes (host : Host) (instance_id : pystr)
    (parameters : gmap pystr Any) (s : Sys)
    (stdout stderr : pystr) (reward : float) : Prop :=
  exists wrapped text meta s',
    _maybe_wrap_print host (code_argument parameters) = Return wrapped /\
    _run_snippet host wrapped (_timeout (self s)) (world s)
      = (Return (stdout, stderr), world s') /\
    execute host instance_id parameters s = (Return (text, reward, meta), s').

(** ** A concrete host

    The theorems below hold for every [Host].  The hosts of this section
    serve the examples: [textwrap.dedent] as the standard library has it up
    to Python 3.13, a parser that knows sums, differences and products of
    decimal numbers and one-letter names, a UTF-8 locale, a temporary
    directory, and a child process whose behaviour is chosen. *)

Module Textwrap.

Definition is_blank (c : N) : bool := (c =? 32) || (c =? 9).

(** [_whitespace_only_re.sub('', text)] on one line. *)
Definition blank_out (line : pystr) : pystr :=
  if forallb is_blank line then [] else line.

(** The leading run of spaces and tabs of a line. *)
Fixpoint indent_of (line : pystr) : pystr :=
  match line with
  | c :: line' => if is_blank c then c :: indent_of line' else []
  | [] => []
  end.

(** The longest common prefix of two margins: the three branches of the
    loop over [indents]. *)
Fixpoint common_prefix (a b : pystr) : pystr :=
  match a, b with
  | x :: a', y :: b' => if x =? y then x :: common_prefix a' b' else []
  | _, _ => []
  end.

(** [margin], [None] while no line with text has been seen. *)
Definition margin_of (lines : list pystr) : option pystr :=
  fold_left
    (fun margin line =>
       match line with
       | [] => margin
       | _ :: _ =>
           match margin with
           | None => Some (indent_of line)
           | Some m => Some (common_prefix m (indent_of line))
           end
       end)
    lines None.

(** [re.sub(r'(?m)^' + margin, '', text)] on one line. *)
Definition cut_margin (margin line : pystr) : pystr :=
  if startswith line margin then skipn (length margin) line else line.

(** [sep.join(pieces)] for a one-character separator. *)
Fixpoint join_char (sep : N) (pieces : list pystr) : pystr :=
  match pieces with
  | [] => []
  | [piece] => piece
  | piece :: rest => piece ++ sep :: join_char sep rest
  end.

Definition dedent (text : pystr) : pystr :=
  let lines := List.map blank_out (split_char text chr_LF) in
  match margin_of lines with
  | Some (c :: m) => join_char chr_LF (List.map (cut_margin (c :: m)) lines)
  | _ => join_char chr_LF lines
  end.

End Textwrap.

Module Demo.

Inductive expect : Type := Start | WantAtom | InNumber | AfterAtom.

Definition is_digit (c : N) : bool := (48 <=? c) && (c <=? 57).
Definition is_letter (c : N) : bool :=
  (65 <=? c) && (c <=? 90) || (97 <=? c) && (c <=? 122).
Definition is_operator (c : N) : bool :=
  (c =? 43) || (c =? 45) || (c =? 42).

(** Atoms are [0], a decimal number without a leading zero, or a
    one-letter name; operators are [+], [-] and [*]; spaces separate. *)
Fixpoint accepts (st : expect) (s : pystr) : bool :=
  match s with
  | [] =>
      match st with
      | InNumber | AfterAtom => true
      | Start | WantAtom => false
      end
  | c :: s' =>
      match st with
      | Start =>
          if c =? 48 then accepts AfterAtom s'
          else if is_digit c then accepts InNumber s'
          else if is_letter c then accepts AfterAtom s'
          else false
      | WantAtom =>
          if c =? 32 then accepts WantAtom s'
          else if c =? 48 then accepts AfterAtom s'
          else if is_digit c then accepts InNumber s'
          else if is_letter c then accepts AfterAtom s'
          else false
      | InNumber =>
          if is_digit c then accepts InNumber s'
          else if c =? 32 then accepts AfterAtom s'
          else if is_operator c then accepts WantAtom s'
          else false
      | AfterAtom =>
          if c =? 32 then accepts AfterAtom s'
          else if is_operator c then accepts WantAtom s'
          else false
      end
  end.

Definition parse_eval (src : pystr) : option exn :=
  if accepts Start src then None else Some SyntaxError.

(** A decimal numeral. *)
Definition decimal (n : nat) : pystr :=
  lit (NilZero.string_of_uint (Nat.to_uint n)).

(** The name of the next temporary file. *)
Definition tmp_create (w : World) : Result pystr :=
  Return (lit "/tmp/tmp" ++ decimal (draws w) ++ lit ".py").

Definition utf8_encodable (s : pystr) : bool :=
  negb (existsb is_surrogate s).

(** A version-4 identifier whose last group counts the draws. *)
Definition uuid4 (n : nat) : pystr :=
  lit "6f1c2a9e-5b7d-4e3a-9c41-" ++
  List.map (fun k => Json.hex_digit (N.of_nat n / 16 ^ k mod 16))
    [11; 10; 9; 8; 7; 6; 5; 4; 3; 2; 1; 0].

(** [data.replace("\r\n", "\n").replace("\r", "\n")]. *)
Fixpoint translate_newlines (s : pystr) : pystr :=
  match s with
  | 13 :: s' =>
      match s' with
      | 10 :: s'' => 10 :: translate_newlines s''
      | _ => 10 :: translate_newlines s'
      end
  | c :: s' => c :: translate_newlines s'
  | [] => []
  end.

(** An ASCII locale: bytes above 127 do not decode. *)
Definition decode_ascii (b : bytes) : option pystr :=
  if forallb (fun c => c <? 128) b then Some (translate_newlines b) else None.

(** A host whose child process always has the outcome [c] and leaves the
    temporary directory alone. *)
Definition host_with (c : child) : Host :=
  mkHost parse_eval Textwrap.dedent tmp_create utf8_encodable
         (fun _ _ w => (c, files w)) decode_ascii (fun _ _ => true) uuid4.

(** The child prints [2] and exits with status 0. *)
Definition host_prints_2 : Host := host_with (Exited (lit "2 ") [] 0).

(** The child fails with a traceback and status 1. *)
Definition host_traceback : Host :=
  host_with (Exited [] (lit "ValueError: boom") 1).

(** The child prints [2] and a warning, and exits with status 0. *)
Definition host_warns : Host :=
  host_with (Exited (lit "2") (lit "DeprecationWarning") 0).

(** The child prints five thousand letters. *)
Definition host_floods : Host := host_with (Exited (repeat 97 5000) [] 0).

(** The child exits with status 3 and a stderr of blanks only. *)
Definition host_blank_stderr : Host :=
  host_with (Exited [] (lit "  " ++ [chr_LF]) 3).


(** There is no [python3] on the path. *)
Definition host_no_python3 : Host := host_with (Failed FileNotFoundError).

(** The child prints a byte that is not ASCII and exits with status 0. *)
Definition host_prints_latin1 : Host := host_with (Exited [233; 10] [] 0).


(** The child prints [2]; the temporary directory lets no file go. *)
Definition host_sticky_tmp : Host :=
  mkHost parse_eval Textwrap.dedent tmp_create utf8_encodable
         (fun _ _ w => (Exited (lit "2") [] 0, files w))
         decode_ascii (fun _ _ => false) uuid4.

Definition world0 : World := mkWorld ∅ 0.

Definition tool0 : Tool := mkTool 5 ∅.

Definition sys0 : Sys := mkSys tool0 world0.

(** [{"code": "1 + 1"}]. *)
Definition params_sum : gmap pystr Any :=
  {[ lit "code" := PyStr (lit "1 + 1") ]}.

(** The envelope of the flood. *)
Definition flood_text : pystr :=
  slice_to 3000
    (lit "<tool_output>"
     ++ Json.dumps [(lit "stdout", repeat 97 5000); (lit "stderr", [])]
     ++ lit "</tool_output>").

(** A tool with two live sessions, the second with a binding in its
    record. *)
Definition tool2 : Tool :=
  mkTool 5 (<[lit "session-1" := ∅]>
            (<[lit "session-2" := {[ lit "x" := PyInt 1 ]}]> ∅)).

Definition sys2 : Sys := mkSys tool2 world0.

(** A session id. *)
Definition sid (n : nat) : pystr := lit "session-" ++ decimal n.

End Demo.

(** * The GSM8K scorer: [verl/utils/reward_score/gsm8k_original.py] *)

(** ** More of Python's strings *)

Module PyStrMore.

(** [a == b] on strings. *)
Fixpoint str_eqb (a b : pystr) : bool :=
  match a, b with
  | [], [] => true
  | x :: a', y :: b' => (x =? y) && str_eqb a' b'
  | _, _ => false
  end.

(** [s.replace(c, "")] for a one-character [c]. *)
Definition remove_char (s : pystr) (c : N) : pystr :=
  List.filter (fun x => negb (x =? c)) s.

(** [s.strip(c)] for a one-character [c]. *)
Fixpoint lstrip_char (c : N) (s : pystr) : pystr :=
  match s with
  | x :: s' => if x =? c then lstrip_char c s' else s
  | [] => []
  end.

Definition strip_char (c : N) (s : pystr) : pystr :=
  rev (lstrip_char c (rev (lstrip_char c s))).

End PyStrMore.
Export PyStrMore.

(** ** The regular expressions of the scorer

    The patterns of the file are sequences of one-character matchers, each
    taken once or under [*], [+] or [*?], with at most one group.  [search]
    is the backtracking search of [re.search] on such a pattern and yields
    [m.group(1)]. *)

Module Re.

Inductive quant : Type := One | Star | Plus | LazyStar.

Record item : Type := mkItem {
  accepts : N -> bool;
  quantifier : quant;
  in_group : bool
}.

(** The group after an item has taken the character [c]. *)
Definition keep (it : item) (c : N) (g : pystr) : pystr :=
  if in_group it then c :: g else g.

(** An item taken once, then the rest of the pattern [k]. *)
Definition once (it : item) (k : pystr -> option pystr) (s : pystr)
  : option pystr :=
  match s with
  | c :: s' => if accepts it c then option_map (keep it c) (k s') else None
  | [] => None
  end.

(** A greedy repetition: the longest run first, giving characters back one
    by one while the rest of the pattern fails. *)
Fixpoint greedy (it : item) (k : pystr -> option pystr) (s : pystr)
  : option pystr :=
  match s with
  | c :: s' =>
      if accepts it c then
        match greedy it k s' with
        | Some g => Some (keep it c g)
        | None => k s
        end
      else k s
  | [] => k s
  end.

(** A lazy repetition: the shortest run first, taking one more character
    while the rest of the pattern fails. *)
Fixpoint lazy (it : item) (k : pystr -> option pystr) (s : pystr)
  : option pystr :=
  match k s with
  | Some g => Some g
  | None =>
      match s with
      | c :: s' =>
          if accepts it c then option_map (keep it c) (lazy it k s') else None
      | [] => None
      end
  end.

(** A match of the pattern at the head of the text: the characters taken
    by the items of the group. *)
Fixpoint match_here (pat : list item) : pystr -> option pystr :=
  match pat with
  | [] => fun _ => Some []
  | it :: pat' =>
      let k := match_here pat' in
      match quantifier it with
      | One => once it k
      | Star => greedy it k
      | Plus => once it (greedy it k)
      | LazyStar => lazy it k
      end
  end.

(** [re.search]: the match at the leftmost position that has one. *)
Fixpoint search (pat : list item) (s : pystr) : option pystr :=
  match match_here pat s with
  | Some g => Some g
  | None =>
      match s with
      | [] => None
      | _ :: s' => search pat s'
      end
  end.

(** A literal character of a pattern under [re.I], given in lower case:
    itself, its capital, and the three characters Unicode folds onto an
    ASCII letter (dotted and dotless i, the Kelvin sign, the long s). *)
Definition ignorecase (l c : N) : bool :=
  (c =? l)
  || (97 <=? l) && (l <=? 122) && (c =? l - 32)
  || (l =? 105) && ((c =? 304) || (c =? 305))
  || (l =? 107) && (c =? 8490)
  || (l =? 115) && (c =? 383).

(** A literal text of a pattern, outside the group. *)
Definition literal (ci : bool) (text : pystr) : list item :=
  List.map (fun l => mkItem (if ci then ignorecase l else N.eqb l) One false)
           text.

(** The items of the group accept only characters with the property
    [P]. *)
Definition group_within (P : N -> bool) (it : item) : Prop :=
  in_group it = true -> forall c, accepts it c = true -> P c = true.

(** [re.findall] for a pattern [[class]+]: the maximal runs of characters
    of the class, from left to right. *)
Fixpoint findall_runs (class : N -> bool) (s : pystr) : list pystr :=
  match s with
  | [] => []
  | c :: s' =>
      if class c then
        match s' with
        | c' :: _ =>
            if class c' then
              match findall_runs class s' with
              | run :: runs => (c :: run) :: runs
              | [] => [[c]]
              end
            else [c] :: findall_runs class s'
        | [] => [[c]]
        end
      else findall_runs class s'
  end.

End Re.

(** ** [extract_solution] and [compute_score] *)

Module Gsm8k.

(** A call either returns or fails its [assert]. *)
Inductive outcome (A : Type) : Type :=
| Returns (a : A)
| AssertionError.
Arguments Returns {A} a.
Arguments AssertionError {A}.

(** A score: the literal [0] is an [int], the two parameters are floats by
    default. *)
Inductive number : Type :=
| Int (z : Z)
| Float (f : float).

(** The class [[-0-9.,]]. *)
Definition numclass (c : N) : bool :=
  (c =? 45) || (48 <=? c) && (c <=? 57) || (c =? 46) || (c =? 44).

(** The characters an extracted answer can hold: the class without the
    comma. *)
Definition answer_char (c : N) : bool :=
  (c =? 45) || (48 <=? c) && (c <=? 57) || (c =? 46).

(** [<answer>\s*([-0-9.,]+).*?</answer>] with [re.I | re.S]. *)
Definition answer_re : list Re.item :=
  Re.literal true (lit "<answer>")
  ++ [Re.mkItem isspace Re.Star false;
      Re.mkItem numclass Re.Plus true;
      Re.mkItem (fun _ => true) Re.LazyStar false]
  ++ Re.literal true (lit "</answer>").

(** The raw string [####\\s*([-0-9.,]+)]: four hashes, one backslash, any
    number of letters [s], and the group. *)
Definition strict_re : list Re.item :=
  Re.literal false (lit "####")
  ++ [Re.mkItem (N.eqb chr_backslash) Re.One false;
      Re.mkItem (N.eqb 115) Re.Star false;
      Re.mkItem numclass Re.Plus true].

(** [x.replace(",", "").replace("$", "")]. *)
Definition clean (x : pystr) : pystr := remove_char (remove_char x 44) 36.

(** [extract_solution(solution_str, method)]. *)
Definition extract_solution (solution_str method : pystr)
  : outcome (option pystr) :=
  if negb (existsb (str_eqb method) [lit "strict"; lit "flexible"])
  then AssertionError
  else
    match Re.search answer_re solution_str with
    | Some g => Returns (Some (clean g))
    | None =>
        if str_eqb method (lit "strict") then
          match Re.search strict_re solution_str with
          | Some g => Returns (Some (clean g))
          | None => Returns None
          end
        else
          let nums := Re.findall_runs numclass solution_str in
          match List.find (fun num => truthy (strip_char 46 (strip num)))
                          (rev nums) with
          | Some num => Returns (Some (clean num))
          | None => Returns None
          end
    end.

(** [compute_score(solution_str, ground_truth, method, format_score,
    score)]. *)
Definition compute_score (solution_str ground_truth method : pystr)
    (format_score score : number) : outcome number :=
  match extract_solution solution_str method with
  | AssertionError => AssertionError
  | Returns None => Returns (Int 0)
  | Returns (Some answer) =>
      if str_eqb answer ground_truth then Returns score
      else Returns format_score
  end.

End Gsm8k.

(** * Properties *)

(** ** Strings *)

Lemma length_slice_to (n : nat) (s : pystr) :
  (length (slice_to n s) <= n)%nat.
Proof. unfold slice_to. rewrite length_firstn. lia. Qed.

Lemma truthy_lit_timed_out : truthy (lit "Execution timed out") = true.
Proof. reflexivity. Qed.

(** [lstrip] removes a run of whitespace from the front and stops at the
    first character that is none. *)
Lemma lstrip_decompose (s : pystr) :
  exists ws, s = ws ++ lstrip s /\ forallb isspace ws = true.
Proof.
  induction s as [|c s (ws & Hs & Hws)]; [exists []; split; reflexivity|].
  simpl. destruct (isspace c) eqn:Hc.
  - exists (c :: ws). simpl. rewrite Hc, Hws. split; [|reflexivity].
    f_equal. exact Hs.
  - exists []. split; reflexivity.
Qed.

Lemma lstrip_head (s : pystr) :
  match lstrip s with
  | [] => True
  | c :: _ => isspace c = false
  end.
Proof.
  induction s as [|c s IH]; simpl; [exact I|].
  destruct (isspace c) eqn:Hc; [exact IH|exact Hc].
Qed.

(** [rstrip] removes a run of whitespace from the end, blank lines
    included, and what it leaves does not end in whitespace. *)
Lemma rstrip_decompose (s : pystr) :
  exists ws, s = rstrip s ++ ws /\ forallb isspace ws = true.
Proof.
  destruct (lstrip_decompose (rev s)) as (ws & Hs & Hws).
  exists (rev ws). split.
  - unfold rstrip. rewrite <- rev_app_distr, <- Hs, rev_involutive.
    reflexivity.
  - apply forallb_forall. intros c Hc. apply in_rev in Hc.
    exact (proj1 (forallb_forall isspace ws) Hws c Hc).
Qed.

Lemma rstrip_last (s : pystr) :
  match rev (rstrip s) with
  | [] => True
  | c :: _ => isspace c = false
  end.
Proof. unfold rstrip. rewrite rev_involutive. apply lstrip_head. Qed.

(** [split] always yields a piece. *)
Lemma split_char_nonempty (s : pystr) (sep : N) : split_char s sep <> [].
Proof.
  destruct s as [|c s]; simpl; [discriminate|].
  destruct (c =? sep); [discriminate|].
  destruct (split_char s sep); discriminate.
Qed.

(** No piece of a split holds the separator. *)
Lemma split_char_no_sep (s : pystr) (sep : N) :
  Forall (fun piece => contains_char piece sep = false) (split_char s sep).
Proof.
  induction s as [|c s IH]; simpl.
  - constructor; [reflexivity|constructor].
  - destruct (c =? sep) eqn:Hc.
    + constructor; [reflexivity|exact IH].
    + destruct (split_char s sep) as [|piece pieces].
      * constructor; [|constructor]. simpl.
        rewrite N.eqb_sym, Hc. reflexivity.
      * inversion IH as [|? ? Hpiece Hpieces]; subst.
        constructor; [|exact Hpieces]. simpl.
        rewrite N.eqb_sym, Hc. exact Hpiece.
Qed.

(** Logical lines are never empty. *)
Lemma logical_lines_truthy (code : pystr) :
  Forall (fun ln => truthy ln = true) (logical_lines code).
Proof.
  unfold logical_lines. apply List.Forall_forall. intros ln Hin.
  apply filter_In in Hin. exact (proj2 Hin).
Qed.

(** ** The snippet runner, case by case *)

Section RunnerFacts.

Variable host : Host.

Lemma write_tmp_eq (text : pystr) (w : World) :
  write_tmp host text w =
  match tmp_create host w with
  | Raise e => (Raise e, w)
  | Return p =>
      if encodable host text then (Return p, written w p text)
      else (Raise UnicodeEncodeError,
            mkWorld (<[p := Regular []]> (files w)) (draws w))
  end.
Proof.
  unfold write_tmp, bind, modify, ret, raise, written.
  destruct (tmp_create host w) as [p|e]; [|reflexivity].
  simpl. destruct (encodable host text); reflexivity.
Qed.

(** The cleanup: a missing file is tolerated, a directory or a refusal is
    not. *)
Lemma cleanup_eq (p : pystr) (w : World) :
  try_except (os_unlink host p) FileNotFoundError (ret tt) w =
  if can_clean host p w
  then (Return tt, mkWorld (delete p (files w)) (draws w))
  else (Raise (unlink_error (files w !! p)), w).
Proof.
  unfold try_except, os_unlink, ret, can_clean, unlink_error.
  destruct (files w !! p) as [[t|]|] eqn:E.
  - destruct (unlink_permitted host p w); reflexivity.
  - reflexivity.
  - rewrite decide_True by reflexivity.
    rewrite delete_id by exact E. destruct w; reflexivity.
Qed.

Lemma unlink_error_not_missing (n : option node) :
  unlink_error n <> FileNotFoundError.
Proof. destruct n as [[|]|]; discriminate. Qed.

(** The [try] block with its [except], before the cleanup. *)
Lemma try_block_eq (p : pystr) (timeout : Z) (w : World) :
  try_except
    (proc <~ subprocess_run host p timeout ;;
     ret (strip (fst proc), strip (snd proc)))
    TimeoutExpired
    (ret ([], lit "Execution timed out")) w
  = (try_outcome host (fst (python3 host p timeout w)),
     mkWorld (snd (python3 host p timeout w)) (draws w)).
Proof.
  unfold try_except, bind, subprocess_run, ret, try_outcome.
  destruct (python3 host p timeout w) as [[out err rc|po pe|e] fs]; simpl.
  - destruct (decode host out), (decode host err); reflexivity.
  - reflexivity.
  - destruct (decide (e = TimeoutExpired)); reflexivity.
Qed.

(** What the runner does once the file is written: the outcome of the
    [try] block when the cleanup goes through, the error of the cleanup
    when it does not. *)
Lemma run_after_write (code : pystr) (timeout : Z) (w w1 : World)
      (p : pystr) (c : child) (fs : gmap pystr node) :
  write_tmp host (dedent host code) w = (Return p, w1) ->
  python3 host p timeout w1 = (c, fs) ->
  _run_snippet host code timeout w =
  if can_clean host p (mkWorld fs (draws w1))
  then (try_outcome host c, cleaned w1 p fs)
  else (Raise (unlink_error (fs !! p)), mkWorld fs (draws w1)).
Proof.
  intros Hw Hc. unfold _run_snippet, bind at 1. rewrite Hw.
  unfold try_finally. rewrite try_block_eq, Hc. cbn [fst snd].
  rewrite cleanup_eq. cbn [files draws].
  destruct (can_clean host p (mkWorld fs (draws w1))); reflexivity.
Qed.

(** When the file cannot be written, the runner raises before any child
    is started. *)
Lemma run_write_failed (code : pystr) (timeout : Z) (w w1 : World)
      (e : exn) :
  write_tmp host (dedent host code) w = (Raise e, w1) ->
  _run_snippet host code timeout w = (Raise e, w1).
Proof. intros Hw. unfold _run_snippet, bind. rewrite Hw. reflexivity. Qed.

End RunnerFacts.

(** ** The execution facade, case by case *)

Section FacadeFacts.

Variable host : Host.

Lemma execute_eq (iid : pystr) (params : gmap pystr Any) (s : Sys) :
  execute host iid params s =
  match _maybe_wrap_print host (code_argument params) with
  | Raise e => (Raise e, s)
  | Return wrapped =>
      match _run_snippet host wrapped (_timeout (self s)) (world s) with
      | (Return proc, w) =>
          (Return
             (slice_to 3000
                (lit "<tool_output>"
                 ++ Json.dumps [(lit "stdout", fst proc);
                                (lit "stderr", snd proc)]
                 ++ lit "</tool_output>"),
              if truthy (snd proc) then (-0.1)%float else 0%float,
              ∅),
           mkSys (self s) w)
      | (Raise e, w) => (Raise e, mkSys (self s) w)
      end
  end.
Proof.
  unfold execute, bind, lift_result, get, in_world, ret.
  destruct (_maybe_wrap_print host (code_argument params)) as [wrapped|e];
    [|reflexivity].
  destruct (_run_snippet host wrapped (_timeout (self s)) (world s))
    as [[proc|e] w]; reflexivity.
Qed.

(** Whatever [execute] does, the tool object is the one it started with. *)
Lemma execute_keeps_self (iid : pystr) (params : gmap pystr Any) (s : Sys) :
  self (snd (execute host iid params s)) = self s.
Proof.
  rewrite execute_eq.
  destruct (_maybe_wrap_print host (code_argument params)) as [wrapped|e];
    [|reflexivity].
  destruct (_run_snippet host wrapped (_timeout (self s)) (world s))
    as [[proc|e] w]; reflexivity.
Qed.

(** A returning [execute] read backwards: the rewriter and the runner
    returned, and the three results are computed from the runner's pair. *)
Lemma execute_returns_inv (iid : pystr) (params : gmap pystr Any) (s s' : Sys)
      (text : pystr) (reward : float) (meta : gmap pystr Any) :
  execute host iid params s = (Return (text, reward, meta), s') ->
  exists wrapped stdout stderr,
    _maybe_wrap_print host (code_argument params) = Return wrapped /\
    _run_snippet host wrapped (_timeout (self s)) (world s)
      = (Return (stdout, stderr), world s') /\
    text = slice_to 3000
             (lit "<tool_output>"
              ++ Json.dumps [(lit "stdout", stdout); (lit "stderr", stderr)]
              ++ lit "</tool_output>") /\
    reward = (if truthy stderr then (-0.1)%float else 0%float) /\
    meta = ∅ /\
    self s' = self s.
Proof.
  rewrite execute_eq.
  destruct (_maybe_wrap_print host (code_argument params)) as [wrapped|e];
    [|discriminate].
  destruct (_run_snippet host wrapped (_timeout (self s)) (world s))
    as [[[stdout stderr]|e] w] eqn:Hrun; [|discriminate].
  intros H. injection H as <- <- <- <-.
  exists wrapped, stdout, stderr. simpl.
  repeat split; try reflexivity. exact Hrun.
Qed.

(** And forwards: when the rewriter and the runner return, so does
    [execute]. *)
Lemma execute_returns (iid : pystr) (params : gmap pystr Any) (s : Sys)
      (wrapped stdout stderr : pystr) (w : World) :
  _maybe_wrap_print host (code_argument params) = Return wrapped ->
  _run_snippet host wrapped (_timeout (self s)) (world s)
    = (Return (stdout, stderr), w) ->
  execute host iid params s
  = (Return
       (slice_to 3000
          (lit "<tool_output>"
           ++ Json.dumps [(lit "stdout", stdout); (lit "stderr", stderr)]
           ++ lit "</tool_output>"),
        if truthy stderr then (-0.1)%float else 0%float,
        ∅),
     mkSys (self s) w).
Proof. intros Hwrap Hrun. rewrite execute_eq, Hwrap, Hrun. reflexivity. Qed.

End FacadeFacts.

(** ** Reward and envelope *)

(** C1.  The reward of every execution that returns is [-0.1] when the
    stderr text the runner returned is non-empty and [0.0] when it is
    empty; two executions, on any hosts, codes, standard outputs and exit
    statuses, whose stderr texts are both empty or both non-empty have the
    same reward. *)
Theorem execute_reward_from_stderr :
  (forall host iid params s text reward meta s',
      execute host iid params s = (Return (text, reward, meta), s') ->
      exists stdout stderr,
        executes host iid params s stdout stderr reward /\
        reward = (if truthy stderr then (-0.1)%float else 0%float))
  /\
  (forall host1 iid1 params1 s1 stdout1 stderr1 reward1
          host2 iid2 params2 s2 stdout2 stderr2 reward2,
      executes host1 iid1 params1 s1 stdout1 stderr1 reward1 ->
      executes host2 iid2 params2 s2 stdout2 stderr2 reward2 ->
      truthy stderr1 = truthy stderr2 ->
      reward1 = reward2).
Proof.
  assert (Hone : forall host iid params s stdout stderr reward,
             executes host iid params s stdout stderr reward ->
             reward = (if truthy stderr then (-0.1)%float else 0%float)).
  { intros host iid params s stdout stderr reward
           (wrapped & text & meta & s' & Hwrap & Hrun & Hexec).
    apply execute_returns_inv in Hexec
      as (wrapped' & stdout' & stderr' & Hwrap' & Hrun' & _ & Hreward & _).
    rewrite Hwrap in Hwrap'. injection Hwrap' as <-.
    rewrite Hrun in Hrun'. injection Hrun' as <- <-.
    exact Hreward. }
  split.
  - intros host iid params s text reward meta s' Hexec.
    destruct (execute_returns_inv _ _ _ _ _ _ _ _ Hexec)
      as (wrapped & stdout & stderr & Hwrap & Hrun & _ & Hreward & _).
    exists stdout, stderr. split; [|exact Hreward].
    exists wrapped, text, meta, s'. auto.
  - intros host1 iid1 params1 s1 stdout1 stderr1 reward1
           host2 iid2 params2 s2 stdout2 stderr2 reward2 H1 H2 Hsame.
    rewrite (Hone _ _ _ _ _ _ _ H1), (Hone _ _ _ _ _ _ _ H2), Hsame.
    reflexivity.
Qed.

(** A child that fails with status 1 and prints nothing, and a child that
    prints a result and a warning and exits with status 0: both executions
    are penalised alike. *)
Lemma execute_reward_from_stderr_witness :
  (exists stdout stderr,
      executes Demo.host_traceback [] Demo.params_sum Demo.sys0
               stdout stderr (-0.1)%float /\
      (-0.1)%float = (if truthy stderr then (-0.1)%float else 0%float))
  /\
  (executes Demo.host_traceback [] Demo.params_sum Demo.sys0
            [] (lit "ValueError: boom") (-0.1)%float /\
   executes Demo.host_warns (Demo.sid 7) Demo.params_sum Demo.sys0
            (lit "2") (lit "DeprecationWarning") (-0.1)%float /\
   truthy (lit "ValueError: boom") = truthy (lit "DeprecationWarning") /\
   (-0.1)%float = (-0.1)%float).
Proof.
  assert (H1 : executes Demo.host_traceback [] Demo.params_sum Demo.sys0
                        [] (lit "ValueError: boom") (-0.1)%float).
  { exists (lit "1 + 1" ++ [chr_LF] ++ lit "print(1 + 1)").
    eexists. exists ∅, Demo.sys0. repeat split; reflexivity. }
  assert (H2 : executes Demo.host_warns (Demo.sid 7) Demo.params_sum Demo.sys0
                        (lit "2") (lit "DeprecationWarning") (-0.1)%float).
  { exists (lit "1 + 1" ++ [chr_LF] ++ lit "print(1 + 1)").
    eexists. exists ∅, Demo.sys0. repeat split; reflexivity. }
  split.
  - eapply (proj1 execute_reward_from_stderr
                  Demo.host_traceback [] Demo.params_sum Demo.sys0).
    reflexivity.
  - split; [exact H1 | split; [exact H2 | split; [reflexivity|]]].
    exact (proj2 execute_reward_from_stderr
                 Demo.host_traceback [] Demo.params_sum Demo.sys0
                 [] (lit "ValueError: boom") (-0.1)%float
                 Demo.host_warns (Demo.sid 7) Demo.params_sum Demo.sys0
                 (lit "2") (lit "DeprecationWarning") (-0.1)%float
                 H1 H2 eq_refl).
Defined.

(** C2.  The text of every execution that returns is the first 3000
    characters of [<tool_output>] + the JSON object with the keys
    [stdout] and [stderr] + [</tool_output>], so it is never longer than
    3000 characters. *)
Theorem execute_text_is_truncated_envelope :
  forall host iid params s text reward meta s',
    execute host iid params s = (Return (text, reward, meta), s') ->
    exists stdout stderr,
      executes host iid params s stdout stderr reward /\
      text = firstn 3000
               (lit "<tool_output>"
                ++ Json.dumps [(lit "stdout", stdout); (lit "stderr", stderr)]
                ++ lit "</tool_output>") /\
      (length text <= 3000)%nat.
Proof.
  intros host iid params s text reward meta s' Hexec.
  destruct (execute_returns_inv _ _ _ _ _ _ _ _ Hexec)
    as (wrapped & stdout & stderr & Hwrap & Hrun & Htext & _).
  exists stdout, stderr. split; [|split].
  - exists wrapped, text, meta, s'. auto.
  - exact Htext.
  - rewrite Htext. apply length_slice_to.
Qed.

(** The serialised object, spelled out. *)
Lemma dumps_payload (stdout stderr : pystr) :
  Json.dumps [(lit "stdout", stdout); (lit "stderr", stderr)] =
  lit "{" ++ [chr_quote] ++ lit "stdout" ++ [chr_quote] ++ lit ": "
  ++ Json.encode_basestring_ascii stdout ++ lit ", "
  ++ [chr_quote] ++ lit "stderr" ++ [chr_quote] ++ lit ": "
  ++ Json.encode_basestring_ascii stderr ++ lit "}".
Proof.
  unfold Json.dumps, Json.dumps_items.
  change (Json.encode_basestring_ascii (lit "stdout"))
    with ([chr_quote] ++ lit "stdout" ++ [chr_quote]).
  change (Json.encode_basestring_ascii (lit "stderr"))
    with ([chr_quote] ++ lit "stderr" ++ [chr_quote]).
  repeat rewrite <- app_assoc. reflexivity.
Qed.

(** Five thousand characters of output: the text is cut to 3000. *)
Lemma execute_text_is_truncated_envelope_witness :
  exists stdout stderr,
    executes Demo.host_floods [] Demo.params_sum Demo.sys0
             stdout stderr 0%float /\
    Demo.flood_text
    = firstn 3000
        (lit "<tool_output>"
         ++ Json.dumps [(lit "stdout", stdout); (lit "stderr", stderr)]
         ++ lit "</tool_output>") /\
    (length Demo.flood_text <= 3000)%nat.
Proof.
  apply (execute_text_is_truncated_envelope
           Demo.host_floods [] Demo.params_sum Demo.sys0
           Demo.flood_text 0%float ∅ Demo.sys0).
  vm_compute. reflexivity.
Defined.

(** A stderr of whitespace is trimmed to the empty string, and the exit
    status 3 is not looked at: the reward is neutral. *)
Example blank_stderr_is_neutral :
  exists text,
    execute Demo.host_blank_stderr [] Demo.params_sum Demo.sys0
    = (Return (text, 0%float, ∅), Demo.sys0).
Proof. eexists. vm_compute. reflexivity. Qed.

Example flood_text_length : length Demo.flood_text = 3000%nat.
Proof. vm_compute. reflexivity. Qed.

(** ** Timeout *)




(** ** The session registry under [execute] *)

(** C9.  [execute] never reads its [instance_id]: its outcome is the same
    for every id, live or not, and the session dictionary after the call is
    the one before it, whether the call returns or raises. *)
Theorem execute_leaves_registry :
  forall host iid params s,
    _state (self (snd (execute host iid params s))) = _state (self s)
    /\
    forall iid', execute host iid' params s = execute host iid params s.
Proof.
  intros host iid params s. split.
  - rewrite execute_keeps_self. reflexivity.
  - intros iid'. reflexivity.
Qed.

(** An id that was never created, on a tool with no session at all. *)
Example execute_unknown_session :
  exists text,
    execute Demo.host_prints_2 (Demo.sid 3) Demo.params_sum Demo.sys0
    = (Return (text, 0%float, ∅), Demo.sys0).
Proof. eexists. vm_compute. reflexivity. Qed.

(** ** The heuristic rewriter *)

Section RewriterFacts.

Variable host : Host.

(** Every outcome of the rewriter: the code as it was, the code with a
    [print] of its last logical line, or an exception of [compile] that is
    not a [SyntaxError]. *)
Lemma wrap_print_outcomes (code : pystr) :
  match _maybe_wrap_print host code with
  | Return r =>
      r = code \/
      r = rstrip (dedent host code) ++ [chr_LF] ++ lit "print("
          ++ List.last (logical_lines code) [] ++ lit ")"
  | Raise e =>
      e <> SyntaxError /\
      compile_eval host (List.last (logical_lines code) []) = Raise e
  end.
Proof.
  unfold _maybe_wrap_print.
  destruct (contains code (lit "print(")); [left; reflexivity|].
  destruct (logical_lines code) as [|l ls]; [left; reflexivity|].
  destruct (contains_char (List.last (l :: ls) []) chr_equals);
    [left; reflexivity|].
  destruct (compile_eval host (List.last (l :: ls) [])) as [[]|e].
  - right. reflexivity.
  - destruct e; try (split; [discriminate|reflexivity]).
    left. reflexivity.
Qed.

(** Where [compile] returns or raises [SyntaxError] on the last logical
    line, the rewriter returns. *)
Lemma wrap_print_returns (code : pystr) :
  compile_eval host (List.last (logical_lines code) []) = Return tt \/
  compile_eval host (List.last (logical_lines code) []) = Raise SyntaxError ->
  exists r, _maybe_wrap_print host code = Return r.
Proof.
  intros Hcompile. pose proof (wrap_print_outcomes code) as H.
  destruct (_maybe_wrap_print host code) as [r|e]; [exists r; reflexivity|].
  destruct H as [Hne Hc]. rewrite Hc in Hcompile.
  destruct Hcompile as [Hc'|Hc']; [discriminate|].
  injection Hc' as ->. contradiction.
Qed.

End RewriterFacts.

(** C5.  A code without [print(] whose last logical line exists, has no
    [=], and compiles as an expression comes back as [dedent(code)] with
    its trailing whitespace (its trailing blank lines among it) removed,
    followed by a new line [print(<last logical line>)]. *)
Theorem wrap_print_appends_print :
  forall host code last,
    contains code (lit "print(") = false ->
    logical_lines code <> [] ->
    last = List.last (logical_lines code) [] ->
    contains_char last chr_equals = false ->
    compile_eval host last = Return tt ->
    _maybe_wrap_print host code
    = Return (rstrip (dedent host code)
              ++ [chr_LF] ++ lit "print(" ++ last ++ lit ")").
Proof.
  intros host code last Hprint Hlines -> Heq Hcompile.
  unfold _maybe_wrap_print. rewrite Hprint.
  destruct (logical_lines code) as [|l ls]; [contradiction|].
  rewrite Heq, Hcompile. reflexivity.
Qed.

(** [rewrite("1 + 1")] is [1 + 1], a line break, and [print(1 + 1)]. *)
Lemma wrap_print_appends_print_witness :
  _maybe_wrap_print Demo.host_prints_2 (lit "1 + 1")
  = Return (lit "1 + 1" ++ [chr_LF] ++ lit "print(1 + 1)").
Proof.
  exact (wrap_print_appends_print
           Demo.host_prints_2 (lit "1 + 1") (lit "1 + 1")
           eq_refl ltac:(discriminate) eq_refl eq_refl eq_refl).
Defined.

(** An indented snippet of two statements with blank lines after it. *)
Example wrap_print_dedents :
  _maybe_wrap_print Demo.host_prints_2
    (lit "  y - 1" ++ [chr_LF] ++ lit "  y * 2  " ++ [chr_LF; chr_LF])
  = Return (lit "y - 1" ++ [chr_LF] ++ lit "y * 2" ++ [chr_LF]
            ++ lit "print(y * 2)").
Proof. reflexivity. Qed.

(** An assignment and then the name: the name is printed. *)
Example wrap_print_after_assignment :
  _maybe_wrap_print Demo.host_prints_2 (lit "x = 1" ++ [chr_LF] ++ lit "x")
  = Return (lit "x = 1" ++ [chr_LF] ++ lit "x" ++ [chr_LF] ++ lit "print(x)").
Proof. reflexivity. Qed.

(** A statement is left alone. *)
Example wrap_print_statement :
  _maybe_wrap_print Demo.host_prints_2 (lit "raise ValueError('boom')")
  = Return (lit "raise ValueError('boom')").
Proof. reflexivity. Qed.

(** C6.  When the last non-empty logical line of the code contains [=],
    wherever in the line, the rewriter returns the code unchanged. *)
Theorem assignment_last_line_unchanged :
  forall host code,
    logical_lines code <> [] ->
    contains_char (List.last (logical_lines code) []) chr_equals = true ->
    _maybe_wrap_print host code = Return code.
Proof.
  intros host code Hlines Heq. unfold _maybe_wrap_print.
  destruct (contains code (lit "print(")); [reflexivity|].
  destruct (logical_lines code) as [|l ls]; [reflexivity|].
  rewrite Heq. reflexivity.
Qed.

(** The [=] of a keyword argument, after a semicolon and before a
    whitespace-only line. *)
Lemma assignment_last_line_unchanged_witness :
  List.last (logical_lines (lit "t = 3; dict(a=t)" ++ [chr_LF] ++ lit "  "))
            []
  = lit "dict(a=t)"
  /\
  _maybe_wrap_print Demo.host_prints_2
    (lit "t = 3; dict(a=t)" ++ [chr_LF] ++ lit "  ")
  = Return (lit "t = 3; dict(a=t)" ++ [chr_LF] ++ lit "  ").
Proof.
  split; [reflexivity|].
  exact (assignment_last_line_unchanged
           Demo.host_prints_2
           (lit "t = 3; dict(a=t)" ++ [chr_LF] ++ lit "  ")
           ltac:(discriminate) eq_refl).
Defined.

(** C7.  The rewriter catches [SyntaxError] only: on a code that is one
    lone surrogate, [compile] raises [UnicodeEncodeError] and the rewriter
    raises it too, on every host. *)
Theorem wrap_print_raises_on_surrogate :
  forall host, _maybe_wrap_print host [55296] = Raise UnicodeEncodeError.
Proof. intros host. reflexivity. Qed.

(** ** The snippet runner *)

(** C3, as the code has it.  With the temporary file written and a
    cleanup that goes through, the runner returns the trimmed streams of a
    child that exited with text that decodes, and the timeout message for
    a child that timed out; it raises [UnicodeDecodeError] on streams that
    do not decode and lets through any other exception of
    [subprocess.run], the missing interpreter's among them.  A cleanup
    that does not go through raises in the place of all of these, and a
    failure to create or write the file raises before the child. *)
Theorem run_snippet_returns_or_propagates :
  (forall host code timeout w p w1 c fs,
      write_tmp host (dedent host code) w = (Return p, w1) ->
      python3 host p timeout w1 = (c, fs) ->
      can_clean host p (mkWorld fs (draws w1)) = true ->
      match c with
      | Exited out err _ =>
          match decode host out, decode host err with
          | Some stdout, Some stderr =>
              fst (_run_snippet host code timeout w)
              = Return (strip stdout, strip stderr)
          | _, _ =>
              fst (_run_snippet host code timeout w)
              = Raise UnicodeDecodeError
          end
      | Expired _ _ =>
          fst (_run_snippet host code timeout w)
          = Return ([], lit "Execution timed out")
      | Failed e =>
          e <> TimeoutExpired ->
          fst (_run_snippet host code timeout w) = Raise e
      end)
  /\
  (forall host code timeout w p w1 c fs,
      write_tmp host (dedent host code) w = (Return p, w1) ->
      python3 host p timeout w1 = (c, fs) ->
      can_clean host p (mkWorld fs (draws w1)) = false ->
      fst (_run_snippet host code timeout w)
      = Raise (unlink_error (fs !! p)) /\
      unlink_error (fs !! p) <> FileNotFoundError)
  /\
  (forall host code timeout w e w1,
      write_tmp host (dedent host code) w = (Raise e, w1) ->
      _run_snippet host code timeout w = (Raise e, w1)).
Proof.
  split; [|split].
  - intros host code timeout w p w1 c fs Hwrite Hc Hclean.
    rewrite (run_after_write host code timeout w w1 p c fs Hwrite Hc), Hclean.
    destruct c as [out err rc|po pe|e]; cbn [fst try_outcome].
    + destruct (decode host out), (decode host err); reflexivity.
    + reflexivity.
    + intros Hne. rewrite decide_False by exact Hne. reflexivity.
  - intros host code timeout w p w1 c fs Hwrite Hc Hclean.
    rewrite (run_after_write host code timeout w w1 p c fs Hwrite Hc), Hclean.
    split; [reflexivity|apply unlink_error_not_missing].
  - intros host code timeout w e w1 Hwrite.
    exact (run_write_failed host code timeout w w1 e Hwrite).
Qed.

(** A child that exits with a traceback on stderr; a directory that lets no
    file go; a code that cannot be encoded. *)
Lemma run_snippet_returns_or_propagates_witness :
  fst (_run_snippet Demo.host_traceback (lit "1 + 1") 5 Demo.world0)
  = Return ([], lit "ValueError: boom")
  /\
  fst (_run_snippet Demo.host_sticky_tmp (lit "1 + 1") 5 Demo.world0)
  = Raise PermissionError
  /\
  _run_snippet Demo.host_prints_2 [112; 55296] 5 Demo.world0
  = (Raise UnicodeEncodeError,
     mkWorld {[ lit "/tmp/tmp0.py" := Regular [] ]} 0).
Proof.
  destruct run_snippet_returns_or_propagates as (Hclean & Hstuck & Hwrite).
  split; [|split].
  - exact (Hclean Demo.host_traceback (lit "1 + 1") 5%Z Demo.world0
             (lit "/tmp/tmp0.py")
             (written Demo.world0 (lit "/tmp/tmp0.py") (lit "1 + 1"))
             (Exited [] (lit "ValueError: boom") 1%Z)
             (files (written Demo.world0 (lit "/tmp/tmp0.py") (lit "1 + 1")))
             eq_refl eq_refl eq_refl).
  - exact (proj1 (Hstuck Demo.host_sticky_tmp (lit "1 + 1") 5%Z Demo.world0
             (lit "/tmp/tmp0.py")
             (written Demo.world0 (lit "/tmp/tmp0.py") (lit "1 + 1"))
             (Exited (lit "2") [] 0%Z)
             (files (written Demo.world0 (lit "/tmp/tmp0.py") (lit "1 + 1")))
             eq_refl eq_refl eq_refl)).
  - exact (Hwrite Demo.host_prints_2 [112; 55296] 5%Z Demo.world0
             UnicodeEncodeError
             (mkWorld {[ lit "/tmp/tmp0.py" := Regular [] ]} 0%nat) eq_refl).
Defined.

(** C3, as stated, fails, in four ways.  Without a [python3] the runner
    raises [FileNotFoundError] instead of returning a pair with a stderr
    text; it raises as well on output that does not decode, on a cleanup
    that is refused, and on a code that cannot be written. *)
Lemma run_snippet_raises_without_python3 :
  (_run_snippet Demo.host_no_python3 (lit "1 + 1") 5 Demo.world0
   = (Raise FileNotFoundError, Demo.world0)
   /\
   ~ exists pair w',
       _run_snippet Demo.host_no_python3 (lit "1 + 1") 5 Demo.world0
       = (Return pair, w'))
  /\
  fst (_run_snippet Demo.host_prints_latin1 (lit "1 + 1") 5 Demo.world0)
  = Raise UnicodeDecodeError
  /\
  fst (_run_snippet Demo.host_sticky_tmp (lit "1 + 1") 5 Demo.world0)
  = Raise PermissionError
  /\
  fst (_run_snippet Demo.host_prints_2 [112; 55296] 5 Demo.world0)
  = Raise UnicodeEncodeError.
Proof.
  split; [split; [reflexivity|]|repeat split].
  intros (pair & w' & H). vm_compute in H. discriminate H.
Qed.

(** ** Session lifecycle *)

(** C8.  [release] returns without raising for every id; afterwards the id
    has no record and every other id has the record it had; on an id
    without a record nothing changes at all, so a second [release] of the
    same id changes nothing. *)
Theorem release_removes_only_that_session :
  forall iid s,
    fst (release iid s) = Return tt
    /\ _state (self (snd (release iid s))) !! iid = None
    /\ (forall j, j <> iid ->
          _state (self (snd (release iid s))) !! j = _state (self s) !! j)
    /\ (_state (self s) !! iid = None -> snd (release iid s) = s)
    /\ release iid (snd (release iid s)) = (Return tt, snd (release iid s)).
Proof.
  intros iid [[timeout st] w]. unfold release, modify. simpl.
  repeat split.
  - apply lookup_delete_eq.
  - intros j Hne. apply lookup_delete_ne. congruence.
  - intros Hnone. rewrite delete_id by exact Hnone. reflexivity.
  - rewrite delete_id by apply lookup_delete_eq. reflexivity.
Qed.

(** Releasing the first of two sessions keeps the record of the second;
    releasing an id that was never created changes nothing. *)
Lemma release_removes_only_that_session_witness :
  _state (self (snd (release (lit "session-1") Demo.sys2)))
    !! lit "session-2"
  = Some {[ lit "x" := PyInt 1 ]}
  /\
  snd (release (lit "session-9") Demo.sys2) = Demo.sys2.
Proof.
  destruct (release_removes_only_that_session (lit "session-1") Demo.sys2)
    as (_ & _ & Hother & _).
  destruct (release_removes_only_that_session (lit "session-9") Demo.sys2)
    as (_ & _ & _ & Hnoop & _).
  split.
  - rewrite (Hother (lit "session-2") ltac:(discriminate)). reflexivity.
  - apply Hnoop. reflexivity.
Defined.

(** C10.  With a non-empty hint, [create] returns the hint and binds it to
    an empty record, whether or not it was bound before.  With no hint or
    the empty one, it draws an identifier from the generator, binds that to
    an empty record and returns it; when the identifier is not live
    already, every live session keeps its record. *)
Theorem create_registers :
  forall host s,
    (forall iid,
        iid <> [] ->
        create host (Some iid) s
        = (Return iid,
           mkSys (mkTool (_timeout (self s))
                         (<[iid := ∅]> (_state (self s))))
                 (world s)))
    /\
    (forall hint,
        hint = None \/ hint = Some [] ->
        let u := uuid4 host (draws (world s)) in
        create host hint s
        = (Return u,
           mkSys (mkTool (_timeout (self s)) (<[u := ∅]> (_state (self s))))
                 (mkWorld (files (world s)) (S (draws (world s)))))
        /\
        (_state (self s) !! u = None ->
         forall j r,
           _state (self s) !! j = Some r ->
           _state (self (snd (create host hint s))) !! j = Some r)).
Proof.
  intros host [[timeout st] w]. split.
  - intros iid Hne. unfold create, bind, modify, ret.
    destruct iid as [|c iid]; [contradiction|]. reflexivity.
  - intros hint Hhint u.
    assert (Hcreate :
              create host hint (mkSys (mkTool timeout st) w)
              = (Return u,
                 mkSys (mkTool timeout (<[u := ∅]> st))
                       (mkWorld (files w) (S (draws w))))).
    { destruct Hhint as [-> | ->]; reflexivity. }
    split; [exact Hcreate|].
    rewrite Hcreate. simpl. intros Hfresh j r Hj.
    rewrite lookup_insert_ne; [exact Hj|].
    intros <-. simpl in Hfresh. congruence.
Qed.

(** A hint that is live already, with a binding in its record: the record
    is replaced by the empty one.  No hint: the first identifier of the
    generator is registered next to the two live sessions. *)
Lemma create_registers_witness :
  (fst (create Demo.host_prints_2 (Some (lit "session-2")) Demo.sys2)
   = Return (lit "session-2")
   /\
   _state (self (snd (create Demo.host_prints_2 (Some (lit "session-2"))
                             Demo.sys2)))
     !! lit "session-2"
   = Some ∅)
  /\
  (fst (create Demo.host_prints_2 None Demo.sys2) = Return (Demo.uuid4 0)
   /\
   _state (self (snd (create Demo.host_prints_2 None Demo.sys2)))
     !! lit "session-2"
   = Some {[ lit "x" := PyInt 1 ]}).
Proof.
  destruct (create_registers Demo.host_prints_2 Demo.sys2) as [Hhint Hnone].
  split.
  - pose proof (Hhint (lit "session-2") ltac:(discriminate)) as Hcreate.
    split.
    + exact (f_equal fst Hcreate).
    + exact (f_equal (fun r => _state (self (snd r)) !! lit "session-2")
                     Hcreate).
  - pose proof (Hnone None (or_introl eq_refl)) as [Hcreate Hkeeps].
    split.
    + exact (f_equal fst Hcreate).
    + apply Hkeeps; reflexivity.
Defined.

(** * Further properties of the interpreter tool *)

(** ** Trimming *)

Lemma lstrip_fixed (s : pystr) :
  match s with [] => True | c :: _ => isspace c = false end ->
  lstrip s = s.
Proof. destruct s as [|c s]; simpl; [reflexivity|]. intros ->. reflexivity. Qed.

Lemma lstrip_idem (s : pystr) : lstrip (lstrip s) = lstrip s.
Proof. apply lstrip_fixed, lstrip_head. Qed.

Lemma rstrip_idem (s : pystr) : rstrip (rstrip s) = rstrip s.
Proof. unfold rstrip. rewrite rev_involutive, lstrip_idem. reflexivity. Qed.

Lemma lstrip_nil_iff (s : pystr) :
  lstrip s = [] <-> forallb isspace s = true.
Proof.
  split.
  - intros H. destruct (lstrip_decompose s) as (ws & Hs & Hws).
    rewrite H, app_nil_r in Hs. subst ws. exact Hws.
  - induction s as [|c s IH]; simpl; [reflexivity|].
    intros H. apply andb_true_iff in H as [Hc Hs]. rewrite Hc. exact (IH Hs).
Qed.

Lemma forallb_rev (p : N -> bool) (s : pystr) :
  forallb p (rev s) = forallb p s.
Proof.
  induction s as [|c s IH]; simpl; [reflexivity|].
  rewrite forallb_app, IH. simpl. rewrite andb_true_r. apply andb_comm.
Qed.

Lemma rstrip_nil_iff (s : pystr) :
  rstrip s = [] <-> forallb isspace s = true.
Proof.
  unfold rstrip. rewrite <- (forallb_rev isspace s), <- lstrip_nil_iff.
  split; intros H.
  - apply (f_equal (@rev N)) in H. rewrite rev_involutive in H. exact H.
  - rewrite H. reflexivity.
Qed.

(** [s.strip()] is empty exactly for a text of whitespace. *)
Lemma strip_nil_iff (s : pystr) :
  strip s = [] <-> forallb isspace s = true.
Proof.
  unfold strip. rewrite rstrip_nil_iff. split.
  - intros H. apply lstrip_nil_iff.
    pose proof (lstrip_head s) as Hh.
    destruct (lstrip s) as [|c t]; [reflexivity|].
    simpl in H. rewrite Hh in H. discriminate.
  - intros H. apply lstrip_nil_iff in H. rewrite H. reflexivity.
Qed.

(** Trimming a trimmed text changes nothing. *)
Lemma strip_idem (s : pystr) : strip (strip s) = strip s.
Proof.
  unfold strip at 1.
  assert (Hl : lstrip (strip s) = strip s).
  { apply lstrip_fixed. unfold strip.
    pose proof (lstrip_head s) as Hh.
    destruct (rstrip_decompose (lstrip s)) as (ws & Hs & _).
    destruct (rstrip (lstrip s)) as [|c t]; [exact I|].
    rewrite Hs in Hh. exact Hh. }
  rewrite Hl. unfold strip. apply rstrip_idem.
Qed.

(** ** The runner: what it returns and what it leaves behind *)

Section RunnerMore.

Variable host : Host.

(** A returning run read backwards: the file was written, the cleanup went
    through, and the pair is the outcome of the [try] block. *)
Lemma run_returns_inv (code : pystr) (timeout : Z) (w w' : World)
      (out err : pystr) :
  _run_snippet host code timeout w = (Return (out, err), w') ->
  exists p w1 c fs,
    write_tmp host (dedent host code) w = (Return p, w1) /\
    python3 host p timeout w1 = (c, fs) /\
    can_clean host p (mkWorld fs (draws w1)) = true /\
    w' = cleaned w1 p fs /\
    try_outcome host c = Return (out, err).
Proof.
  intros Hrun.
  destruct (write_tmp host (dedent host code) w) as [[p|e] w1] eqn:Hw.
  - destruct (python3 host p timeout w1) as [c fs] eqn:Hc.
    rewrite (run_after_write host code timeout w w1 p c fs Hw Hc) in Hrun.
    destruct (can_clean host p (mkWorld fs (draws w1))) eqn:Hclean;
      [|discriminate].
    injection Hrun as Hout <-.
    exists p, w1, c, fs. auto.
  - rewrite (run_write_failed host code timeout w w1 e Hw) in Hrun.
    discriminate.
Qed.

(** The pair of a [try] block that returns is trimmed. *)
Lemma try_outcome_trimmed (c : child) (out err : pystr) :
  try_outcome host c = Return (out, err) ->
  strip out = out /\ strip err = err.
Proof.
  destruct c as [o e rc|po pe|x]; cbn [try_outcome].
  - destruct (decode host o), (decode host e); try discriminate.
    intros [= <- <-]. split; apply strip_idem.
  - intros [= <- <-]. split; reflexivity.
  - destruct (decide (x = TimeoutExpired)); [|discriminate].
    intros [= <- <-]. split; reflexivity.
Qed.

End RunnerMore.

(** X1.  Both texts the runner returns are trimmed: trimming them again
    changes nothing, whether they come from the child or from the
    timeout. *)
Theorem run_snippet_returns_trimmed :
  forall host code timeout w out err w',
    _run_snippet host code timeout w = (Return (out, err), w') ->
    strip out = out /\ strip err = err.
Proof.
  intros host code timeout w out err w' Hrun.
  destruct (run_returns_inv host code timeout w w' out err Hrun)
    as (p & w1 & c & fs & _ & _ & _ & _ & Hc).
  exact (try_outcome_trimmed host c out err Hc).
Qed.

Lemma run_snippet_returns_trimmed_witness :
  strip (lit "2") = lit "2" /\ strip [] = [].
Proof.
  exact (run_snippet_returns_trimmed
           Demo.host_prints_2 (lit "1 + 1") 5 Demo.world0
           (lit "2") [] Demo.world0 eq_refl).
Defined.



(** The same child on a directory that lets no file go: the runner raises
    and the script stays. *)
Example run_snippet_keeps_tmp_when_refused :
  _run_snippet Demo.host_sticky_tmp (lit "1 + 1") 5 Demo.world0
  = (Raise PermissionError,
     mkWorld {[ lit "/tmp/tmp0.py" := Regular (lit "1 + 1") ]} 0).
Proof. reflexivity. Qed.

(** X3.  When the text cannot be encoded, the runner raises
    [UnicodeEncodeError] from inside the [with] block, before its
    [try]/[finally]: no child is started and the temporary file stays
    behind, empty. *)
Theorem run_snippet_leaks_tmp_on_write_error :
  forall host code timeout w p,
    tmp_create host w = Return p ->
    encodable host (dedent host code) = false ->
    fst (_run_snippet host code timeout w) = Raise UnicodeEncodeError /\
    files (snd (_run_snippet host code timeout w)) !! p = Some (Regular []).
Proof.
  intros host code timeout w p Hp Henc.
  assert (Hw : write_tmp host (dedent host code) w
               = (Raise UnicodeEncodeError,
                  mkWorld (<[p := Regular []]> (files w)) (draws w))).
  { rewrite write_tmp_eq, Hp, Henc. reflexivity. }
  rewrite (run_write_failed host code timeout w _ _ Hw). simpl.
  split; [reflexivity|apply lookup_insert_eq].
Qed.

Lemma run_snippet_leaks_tmp_on_write_error_witness :
  fst (_run_snippet Demo.host_prints_2 [112; 55296] 5 Demo.world0)
  = Raise UnicodeEncodeError
  /\
  files (snd (_run_snippet Demo.host_prints_2 [112; 55296] 5 Demo.world0))
    !! lit "/tmp/tmp0.py"
  = Some (Regular []).
Proof.
  exact (run_snippet_leaks_tmp_on_write_error
           Demo.host_prints_2 [112; 55296] 5 Demo.world0
           (lit "/tmp/tmp0.py") eq_refl eq_refl).
Defined.



(** ** The envelope *)

Lemma firstn_app_short {A} (n : nat) (a b : list A) :
  (length a <= n)%nat ->
  firstn n (a ++ b) = a ++ firstn (n - length a) b.
Proof.
  intros H. rewrite firstn_app, firstn_all2 by exact H. reflexivity.
Qed.

Lemma forallb_firstn {A} (p : A -> bool) (n : nat) (l : list A) :
  forallb p l = true -> forallb p (firstn n l) = true.
Proof.
  revert n. induction l as [|x l IH]; intros [|n] H; simpl; try reflexivity.
  simpl in H. apply andb_true_iff in H as [Hx Hl].
  rewrite Hx. exact (IH n Hl).
Qed.

Lemma forallb_flat_map {A B} (p : B -> bool) (f : A -> list B) (l : list A) :
  (forall x, forallb p (f x) = true) ->
  forallb p (flat_map f l) = true.
Proof.
  intros Hf. induction l as [|x l IH]; simpl; [reflexivity|].
  rewrite forallb_app, Hf, IH. reflexivity.
Qed.

Lemma hex_digit_printable (d : N) :
  d < 16 -> Json.printable (Json.hex_digit d) = true.
Proof.
  intros Hd. unfold Json.printable, Json.hex_digit.
  destruct (d <? 10) eqn:H10; apply andb_true_iff; split;
    apply N.leb_le; try lia.
Qed.

Lemma u_escape_printable (n : N) :
  forallb Json.printable (Json.u_escape n) = true.
Proof.
  unfold Json.u_escape. simpl.
  rewrite !hex_digit_printable by (apply N.mod_lt; discriminate).
  reflexivity.
Qed.

Lemma escape_char_printable (c : N) :
  forallb Json.printable (Json.escape_char c) = true.
Proof.
  unfold Json.escape_char.
  repeat match goal with
         | |- context [if ?b then _ else _] =>
             destruct b eqn:?; try reflexivity
         end.
  - simpl. unfold Json.printable.
    match goal with H : (_ && _) = true |- _ => rewrite H end. reflexivity.
  - apply u_escape_printable.
  - rewrite forallb_app, !u_escape_printable. reflexivity.
Qed.

Lemma escape_char_length (c : N) :
  (1 <= length (Json.escape_char c) <= 12)%nat.
Proof.
  unfold Json.escape_char, Json.u_escape.
  repeat match goal with
         | |- context [if ?b then _ else _] => destruct b
         end;
    rewrite ?length_app; simpl; lia.
Qed.

Lemma flat_map_escape_length (s : pystr) :
  (length s <= length (flat_map Json.escape_char s) <= 12 * length s)%nat.
Proof.
  induction s as [|c s IH]; simpl; [lia|].
  rewrite length_app. pose proof (escape_char_length c). lia.
Qed.

(** The envelope before it is cut, with its fixed parts spelled out. *)
Lemma envelope_shape (stdout stderr : pystr) :
  lit "<tool_output>"
  ++ Json.dumps [(lit "stdout", stdout); (lit "stderr", stderr)]
  ++ lit "</tool_output>"
  = (lit "<tool_output>{" ++ [chr_quote] ++ lit "stdout" ++ [chr_quote]
     ++ lit ": " ++ [chr_quote])
    ++ flat_map Json.escape_char stdout
    ++ ([chr_quote] ++ lit ", " ++ [chr_quote] ++ lit "stderr"
        ++ [chr_quote] ++ lit ": " ++ [chr_quote])
    ++ flat_map Json.escape_char stderr
    ++ ([chr_quote] ++ lit "}" ++ lit "</tool_output>").
Proof.
  rewrite dumps_payload. unfold Json.encode_basestring_ascii.
  repeat rewrite <- app_assoc. reflexivity.
Qed.

Lemma envelope_length (stdout stderr : pystr) :
  length (lit "<tool_output>"
          ++ Json.dumps [(lit "stdout", stdout); (lit "stderr", stderr)]
          ++ lit "</tool_output>")
  = (55 + length (flat_map Json.escape_char stdout)
     + length (flat_map Json.escape_char stderr))%nat.
Proof.
  rewrite envelope_shape.
  set (a := flat_map Json.escape_char stdout).
  set (b := flat_map Json.escape_char stderr).
  rewrite !length_app. unfold lit. cbn [length list_ascii_of_string map].
  lia.
Qed.

(** X5.  The cut never reaches the head of the envelope: every text
    [execute] returns starts with the opening marker, the brace and the
    key [stdout] with the quote that opens its value. *)
Theorem execute_text_keeps_opening :
  forall host iid params s text reward meta s',
    execute host iid params s = (Return (text, reward, meta), s') ->
    exists rest,
      text = lit "<tool_output>{" ++ [chr_quote] ++ lit "stdout"
             ++ [chr_quote] ++ lit ": " ++ [chr_quote] ++ rest.
Proof.
  intros host iid params s text reward meta s' Hexec.
  destruct (execute_returns_inv _ _ _ _ _ _ _ _ Hexec)
    as (wrapped & stdout & stderr & _ & _ & Htext & _).
  rewrite Htext. unfold slice_to. rewrite envelope_shape.
  rewrite firstn_app_short by (vm_compute; lia).
  eexists. repeat rewrite <- app_assoc. reflexivity.
Qed.

Lemma execute_text_keeps_opening_witness :
  exists rest,
    slice_to 3000
      (lit "<tool_output>"
       ++ Json.dumps [(lit "stdout", lit "2");
                      (lit "stderr", lit "DeprecationWarning")]
       ++ lit "</tool_output>")
    = lit "<tool_output>{" ++ [chr_quote] ++ lit "stdout"
      ++ [chr_quote] ++ lit ": " ++ [chr_quote] ++ rest.
Proof.
  exact (execute_text_keeps_opening
           Demo.host_warns [] Demo.params_sum Demo.sys0
           _ (-0.1)%float ∅ Demo.sys0 eq_refl).
Defined.

(** X6.  Whatever the child printed, every character of the returned text
    lies between space and tilde: the serialiser escapes all others. *)
Theorem execute_text_is_printable_ascii :
  forall host iid params s text reward meta s',
    execute host iid params s = (Return (text, reward, meta), s') ->
    forallb Json.printable text = true.
Proof.
  intros host iid params s text reward meta s' Hexec.
  destruct (execute_returns_inv _ _ _ _ _ _ _ _ Hexec)
    as (wrapped & stdout & stderr & _ & _ & Htext & _).
  rewrite Htext. apply forallb_firstn. rewrite envelope_shape.
  rewrite !forallb_app.
  rewrite !(forallb_flat_map Json.printable Json.escape_char)
    by apply escape_char_printable.
  reflexivity.
Qed.

Lemma execute_text_is_printable_ascii_witness :
  forallb Json.printable
    (slice_to 3000
       (lit "<tool_output>"
        ++ Json.dumps [(lit "stdout", lit "2");
                       (lit "stderr", lit "DeprecationWarning")]
        ++ lit "</tool_output>"))
  = true.
Proof.
  exact (execute_text_is_printable_ascii
           Demo.host_warns [] Demo.params_sum Demo.sys0
           _ (-0.1)%float ∅ Demo.sys0 eq_refl).
Defined.

(** X7.  When the two texts of the runner have more than 2945 characters
    together, the returned text is cut: it has exactly 3000 characters. *)
Theorem execute_cuts_long_output :
  forall host iid params s wrapped stdout stderr w,
    _maybe_wrap_print host (code_argument params) = Return wrapped ->
    _run_snippet host wrapped (_timeout (self s)) (world s)
      = (Return (stdout, stderr), w) ->
    (2945 < length stdout + length stderr)%nat ->
    exists text reward,
      execute host iid params s
      = (Return (text, reward, ∅), mkSys (self s) w) /\
      length text = 3000%nat.
Proof.
  intros host iid params s wrapped stdout stderr w Hwrap Hrun Hlong.
  rewrite (execute_returns host iid params s wrapped _ _ _ Hwrap Hrun).
  do 2 eexists. split; [reflexivity|].
  unfold slice_to. rewrite length_firstn, envelope_length.
  pose proof (flat_map_escape_length stdout).
  pose proof (flat_map_escape_length stderr). lia.
Qed.

Lemma execute_cuts_long_output_witness :
  exists text reward,
    execute Demo.host_floods [] Demo.params_sum Demo.sys0
    = (Return (text, reward, ∅), Demo.sys0) /\
    length text = 3000%nat.
Proof.
  apply (execute_cuts_long_output
           Demo.host_floods [] Demo.params_sum Demo.sys0
           (lit "1 + 1" ++ [chr_LF] ++ lit "print(1 + 1)")
           (repeat 97 5000) [] Demo.world0 eq_refl).
  - vm_compute. reflexivity.
  - vm_compute. lia.
Defined.

(** X8.  When the two texts of the runner have at most 245 characters
    together, nothing is cut: the returned text is the whole envelope,
    closing marker included. *)
Theorem execute_keeps_short_output_whole :
  forall host iid params s wrapped stdout stderr w,
    _maybe_wrap_print host (code_argument params) = Return wrapped ->
    _run_snippet host wrapped (_timeout (self s)) (world s)
      = (Return (stdout, stderr), w) ->
    (length stdout + length stderr <= 245)%nat ->
    fst (execute host iid params s)
    = Return (lit "<tool_output>"
              ++ Json.dumps [(lit "stdout", stdout); (lit "stderr", stderr)]
              ++ lit "</tool_output>",
              if truthy stderr then (-0.1)%float else 0%float,
              ∅).
Proof.
  intros host iid params s wrapped stdout stderr w Hwrap Hrun Hshort.
  rewrite (execute_returns host iid params s wrapped _ _ _ Hwrap Hrun).
  cbn [fst]. unfold slice_to. rewrite firstn_all2; [reflexivity|].
  rewrite envelope_length.
  pose proof (flat_map_escape_length stdout).
  pose proof (flat_map_escape_length stderr). lia.
Qed.

Lemma execute_keeps_short_output_whole_witness :
  fst (execute Demo.host_warns [] Demo.params_sum Demo.sys0)
  = Return (lit "<tool_output>"
            ++ Json.dumps [(lit "stdout", lit "2");
                           (lit "stderr", lit "DeprecationWarning")]
            ++ lit "</tool_output>",
            (-0.1)%float, ∅).
Proof.
  apply (execute_keeps_short_output_whole
           Demo.host_warns [] Demo.params_sum Demo.sys0
           (lit "1 + 1" ++ [chr_LF] ++ lit "print(1 + 1)")
           (lit "2") (lit "DeprecationWarning") Demo.world0 eq_refl eq_refl).
  vm_compute. lia.
Defined.

(** ** The rewriter: logical lines, blank code, idempotence *)

Lemma contains_char_false_iff (s : pystr) (c : N) :
  contains_char s c = false <-> ~ In c s.
Proof.
  unfold contains_char. split.
  - intros H Hin. assert (existsb (N.eqb c) s = true); [|congruence].
    apply existsb_exists. exists c. split; [exact Hin|apply N.eqb_refl].
  - intros Hnin. destruct (existsb (N.eqb c) s) eqn:E; [|reflexivity].
    apply existsb_exists in E as (x & Hin & Hx).
    apply N.eqb_eq in Hx. subst x. contradiction.
Qed.

Lemma In_lstrip (c : N) (s : pystr) : In c (lstrip s) -> In c s.
Proof.
  destruct (lstrip_decompose s) as (ws & Hs & _). intros H.
  rewrite Hs. apply in_or_app. right. exact H.
Qed.

Lemma In_rstrip (c : N) (s : pystr) : In c (rstrip s) -> In c s.
Proof.
  destruct (rstrip_decompose s) as (ws & Hs & _). intros H.
  rewrite Hs. apply in_or_app. left. exact H.
Qed.

Lemma In_strip (c : N) (s : pystr) : In c (strip s) -> In c s.
Proof. intros H. apply In_lstrip, In_rstrip. exact H. Qed.

(** The characters of a piece of a split are characters of the text. *)
Lemma split_char_In (s : pystr) (sep c : N) (piece : pystr) :
  In piece (split_char s sep) -> In c piece -> In c s.
Proof.
  revert piece. induction s as [|x s IH]; intros piece Hp Hc; simpl in Hp.
  - destruct Hp as [<-|[]]. destruct Hc.
  - destruct (x =? sep).
    + destruct Hp as [<-|Hp]; [destruct Hc|]. right. exact (IH piece Hp Hc).
    + destruct (split_char s sep) as [|q qs].
      * destruct Hp as [<-|[]]. destruct Hc as [<-|[]]. left. reflexivity.
      * destruct Hp as [<-|Hp].
        -- destruct Hc as [<-|Hc]; [left; reflexivity|].
           right. apply (IH q); [left; reflexivity|exact Hc].
        -- right. apply (IH piece); [right; exact Hp|exact Hc].
Qed.

Lemma replace_char_no_old (s : pystr) (old new : N) :
  old <> new -> ~ In old (replace_char s old new).
Proof.
  intros Hne Hin. unfold replace_char in Hin.
  apply in_map_iff in Hin as (x & Hx & _).
  destruct (x =? old) eqn:E.
  - congruence.
  - apply N.eqb_neq in E. congruence.
Qed.

(** X9.  Every logical line the rewriter looks at is non-empty, trimmed,
    and holds neither a line break nor a semicolon; so the [print(...)] it
    may append is one line. *)
Theorem logical_lines_are_single_trimmed_statements :
  forall code ln,
    In ln (logical_lines code) ->
    ln <> [] /\
    strip ln = ln /\
    contains_char ln chr_LF = false /\
    contains_char ln chr_semicolon = false.
Proof.
  intros code ln Hin. unfold logical_lines in Hin.
  apply filter_In in Hin as [Hin Htruthy].
  apply in_map_iff in Hin as (piece & <- & Hpiece).
  split; [|split; [|split]].
  - intros E. rewrite E in Htruthy. discriminate.
  - apply strip_idem.
  - apply contains_char_false_iff. intros Hc. apply In_strip in Hc.
    pose proof (split_char_no_sep
                  (replace_char code chr_semicolon chr_LF) chr_LF) as Hno.
    rewrite List.Forall_forall in Hno. specialize (Hno piece Hpiece).
    apply contains_char_false_iff in Hno. contradiction.
  - apply contains_char_false_iff. intros Hc. apply In_strip in Hc.
    apply (split_char_In _ _ _ _ Hpiece) in Hc.
    apply replace_char_no_old in Hc; [exact Hc|discriminate].
Qed.

Lemma logical_lines_are_single_trimmed_statements_witness :
  lit "dict(a=t)" <> [] /\
  strip (lit "dict(a=t)") = lit "dict(a=t)" /\
  contains_char (lit "dict(a=t)") chr_LF = false /\
  contains_char (lit "dict(a=t)") chr_semicolon = false.
Proof.
  apply (logical_lines_are_single_trimmed_statements
           (lit "t = 3; dict(a=t)" ++ [chr_LF] ++ lit "  ")).
  right. left. reflexivity.
Defined.

Lemma split_char_blank (s : pystr) (sep : N) :
  forallb isspace s = true ->
  Forall (fun piece => forallb isspace piece = true) (split_char s sep).
Proof.
  induction s as [|c s IH]; simpl; intros H.
  - constructor; [reflexivity|constructor].
  - apply andb_true_iff in H as [Hc Hs]. specialize (IH Hs).
    destruct (c =? sep).
    + constructor; [reflexivity|exact IH].
    + destruct (split_char s sep) as [|q qs].
      * constructor; [simpl; rewrite Hc; reflexivity|constructor].
      * inversion IH as [|? ? Hq Hqs]; subst.
        constructor; [simpl; rewrite Hc; exact Hq|exact Hqs].
Qed.

Lemma logical_lines_blank (code : pystr) :
  forallb (fun c => isspace c || (c =? chr_semicolon)) code = true ->
  logical_lines code = [].
Proof.
  intros H. unfold logical_lines.
  assert (Hsp : forallb isspace (replace_char code chr_semicolon chr_LF)
                = true).
  { unfold replace_char. induction code as [|c code IH]; [reflexivity|].
    simpl in *. apply andb_true_iff in H as [Hc Hcode].
    rewrite (IH Hcode), andb_true_r.
    destruct (c =? chr_semicolon) eqn:E; [reflexivity|].
    rewrite orb_false_r in Hc. exact Hc. }
  pose proof (split_char_blank _ chr_LF Hsp) as Hpieces.
  induction Hpieces as [|piece pieces Hpiece _ IH]; [reflexivity|].
  simpl. apply strip_nil_iff in Hpiece. rewrite Hpiece. exact IH.
Qed.

(** X10.  A code of nothing but whitespace and semicolons, the empty code
    among them, has no logical line and comes back unchanged on every
    host: [compile] is not consulted. *)
Theorem wrap_print_leaves_blank_code :
  forall host code,
    forallb (fun c => isspace c || (c =? chr_semicolon)) code = true ->
    logical_lines code = [] /\
    _maybe_wrap_print host code = Return code.
Proof.
  intros host code H. pose proof (logical_lines_blank code H) as Hl.
  split; [exact Hl|].
  unfold _maybe_wrap_print. rewrite Hl.
  destruct (contains code (lit "print(")); reflexivity.
Qed.

Lemma wrap_print_leaves_blank_code_witness :
  logical_lines (lit " ; " ++ [chr_LF; 9] ++ lit ";;") = [] /\
  _maybe_wrap_print Demo.host_prints_2 (lit " ; " ++ [chr_LF; 9] ++ lit ";;")
  = Return (lit " ; " ++ [chr_LF; 9] ++ lit ";;").
Proof.
  exact (wrap_print_leaves_blank_code
           Demo.host_prints_2 (lit " ; " ++ [chr_LF; 9] ++ lit ";;")
           eq_refl).
Defined.

Lemma startswith_app (needle rest : pystr) :
  startswith (needle ++ rest) needle = true.
Proof.
  induction needle as [|c needle IH]; [destruct rest; reflexivity|].
  simpl. rewrite N.eqb_refl. exact IH.
Qed.

Lemma contains_unfold (s needle : pystr) :
  contains s needle
  = startswith s needle
    || match s with [] => false | _ :: s' => contains s' needle end.
Proof. destruct s; reflexivity. Qed.

Lemma contains_app (before needle after : pystr) :
  contains (before ++ needle ++ after) needle = true.
Proof.
  induction before as [|c before IH].
  - simpl. rewrite contains_unfold, startswith_app. reflexivity.
  - rewrite contains_unfold. simpl. rewrite IH. apply orb_true_r.
Qed.

(** X11.  The rewriter is idempotent: what it returns, it returns
    unchanged when applied again, because a code it has wrapped holds
    [print(]. *)
Theorem wrap_print_idempotent :
  forall host code r,
    _maybe_wrap_print host code = Return r ->
    _maybe_wrap_print host r = Return r.
Proof.
  intros host code r H.
  pose proof (wrap_print_outcomes host code) as Hout. rewrite H in Hout.
  destruct Hout as [-> | ->]; [exact H|].
  unfold _maybe_wrap_print.
  rewrite (app_assoc (rstrip (dedent host code)) [chr_LF]).
  rewrite contains_app. reflexivity.
Qed.

Lemma wrap_print_idempotent_witness :
  _maybe_wrap_print Demo.host_prints_2
    (lit "1 + 1" ++ [chr_LF] ++ lit "print(1 + 1)")
  = Return (lit "1 + 1" ++ [chr_LF] ++ lit "print(1 + 1)").
Proof.
  exact (wrap_print_idempotent
           Demo.host_prints_2 (lit "1 + 1")
           (lit "1 + 1" ++ [chr_LF] ++ lit "print(1 + 1)") eq_refl).
Defined.

(** X12.  When the code has no [print(] and its last logical line holds a
    surrogate and no [=], [compile] raises [UnicodeEncodeError]; the
    rewriter lets it through and so does [execute], before any temporary
    file is created: the tool and the host are as they were. *)
Theorem execute_raises_on_surrogate_line :
  forall host iid params s,
    contains (code_argument params) (lit "print(") = false ->
    logical_lines (code_argument params) <> [] ->
    contains_char (List.last (logical_lines (code_argument params)) [])
                  chr_equals = false ->
    existsb is_surrogate
            (List.last (logical_lines (code_argument params)) []) = true ->
    _maybe_wrap_print host (code_argument params) = Raise UnicodeEncodeError
    /\
    execute host iid params s = (Raise UnicodeEncodeError, s).
Proof.
  intros host iid params s Hprint Hlines Heq Hsur.
  assert (Hwrap : _maybe_wrap_print host (code_argument params)
                  = Raise UnicodeEncodeError).
  { unfold _maybe_wrap_print. rewrite Hprint.
    destruct (logical_lines (code_argument params)) as [|l ls];
      [contradiction|].
    rewrite Heq. unfold compile_eval. rewrite Hsur. reflexivity. }
  split; [exact Hwrap|].
  rewrite execute_eq, Hwrap. reflexivity.
Qed.

Lemma execute_raises_on_surrogate_line_witness :
  _maybe_wrap_print Demo.host_prints_2
    (code_argument {[ lit "code" := PyStr (lit "x = 1; " ++ [120; 56832]) ]})
  = Raise UnicodeEncodeError
  /\
  execute Demo.host_prints_2 (Demo.sid 1)
    {[ lit "code" := PyStr (lit "x = 1; " ++ [120; 56832]) ]} Demo.sys2
  = (Raise UnicodeEncodeError, Demo.sys2).
Proof.
  exact (execute_raises_on_surrogate_line
           Demo.host_prints_2 (Demo.sid 1)
           {[ lit "code" := PyStr (lit "x = 1; " ++ [120; 56832]) ]}
           Demo.sys2 eq_refl ltac:(discriminate) eq_refl eq_refl).
Defined.

(** ** Sessions over their life *)

(** [create] always returns, and its only change to the tool is the empty
    record bound to the identifier it returns. *)
Lemma create_returns (host : Host) (hint : option pystr) (s : Sys) :
  exists iid w',
    create host hint s
    = (Return iid,
       mkSys (mkTool (_timeout (self s)) (<[iid := ∅]> (_state (self s))))
             w') /\
    files w' = files (world s).
Proof.
  destruct s as [[timeout st] w].
  destruct hint as [[|c iid]|]; eexists; eexists; split; reflexivity.
Qed.

(** X13.  Creating a session whose identifier was not live and releasing
    it again leaves the session dictionary as it was. *)
Theorem create_then_release_restores_registry :
  forall host hint s iid s1,
    create host hint s = (Return iid, s1) ->
    _state (self s) !! iid = None ->
    _state (self (snd (release iid s1))) = _state (self s).
Proof.
  intros host hint s iid s1 Hcreate Hfresh.
  destruct (create_returns host hint s) as (iid' & w' & Heq & _).
  rewrite Heq in Hcreate. injection Hcreate as <- <-.
  unfold release, modify. simpl.
  rewrite delete_insert_eq. apply delete_id. exact Hfresh.
Qed.

Lemma create_then_release_restores_registry_witness :
  _state (self (snd (release (Demo.uuid4 0)
                       (snd (create Demo.host_prints_2 None Demo.sys2)))))
  = _state (self Demo.sys2).
Proof.
  exact (create_then_release_restores_registry
           Demo.host_prints_2 None Demo.sys2 (Demo.uuid4 0)
           (snd (create Demo.host_prints_2 None Demo.sys2))
           eq_refl eq_refl).
Defined.

(** X14.  Creating the same non-empty identifier twice is the same as
    creating it once: the second call returns the identifier again and
    changes nothing. *)
Theorem create_twice_is_create_once :
  forall host iid s,
    iid <> [] ->
    create host (Some iid) (snd (create host (Some iid) s))
    = (Return iid, snd (create host (Some iid) s)).
Proof.
  intros host iid [[timeout st] w] Hne.
  destruct iid as [|c iid]; [contradiction|].
  unfold create, bind, modify, ret. simpl.
  rewrite insert_insert_eq. reflexivity.
Qed.

Lemma create_twice_is_create_once_witness :
  create Demo.host_prints_2 (Some (lit "session-2"))
    (snd (create Demo.host_prints_2 (Some (lit "session-2")) Demo.sys2))
  = (Return (lit "session-2"),
     snd (create Demo.host_prints_2 (Some (lit "session-2")) Demo.sys2)).
Proof.
  exact (create_twice_is_create_once
           Demo.host_prints_2 (lit "session-2") Demo.sys2
           ltac:(discriminate)).
Defined.

(** X15.  A whole life of a session: created with an identifier that was
    not live, used for an execution that returns or raises, and released,
    it leaves the session dictionary as it was before. *)
Theorem session_life_restores_registry :
  forall host hint params s iid s1,
    create host hint s = (Return iid, s1) ->
    _state (self s) !! iid = None ->
    _state (self (snd (release iid (snd (execute host iid params s1)))))
    = _state (self s).
Proof.
  intros host hint params s iid s1 Hcreate Hfresh.
  destruct (create_returns host hint s) as (iid' & w' & Heq & _).
  rewrite Heq in Hcreate. injection Hcreate as <- <-.
  unfold release, modify. simpl.
  rewrite execute_keeps_self. simpl.
  rewrite delete_insert_eq. apply delete_id. exact Hfresh.
Qed.

Lemma session_life_restores_registry_witness :
  _state (self (snd (release (lit "session-3")
    (snd (execute Demo.host_no_python3 (lit "session-3") Demo.params_sum
            (snd (create Demo.host_no_python3 (Some (lit "session-3"))
                         Demo.sys2)))))))
  = _state (self Demo.sys2).
Proof.
  exact (session_life_restores_registry
           Demo.host_no_python3 (Some (lit "session-3")) Demo.params_sum
           Demo.sys2 (lit "session-3")
           (snd (create Demo.host_no_python3 (Some (lit "session-3"))
                        Demo.sys2))
           eq_refl eq_refl).
Defined.

(** ** A call without code *)

(** X23.  When [parameters] has no key [code], [execute] takes the empty
    string in its place: no key error, the rewriter returns the empty
    code, and the call does what it does for [{"code": ""}]. *)
Theorem execute_without_code_runs_empty_snippet :
  forall host iid params s,
    params !! lit "code" = None ->
    _maybe_wrap_print host (code_argument params) = Return [] /\
    execute host iid params s
    = execute host iid (<[lit "code" := PyStr []]> params) s.
Proof.
  intros host iid params s Hmissing.
  assert (Hcode : code_argument params = []).
  { unfold code_argument. rewrite Hmissing. reflexivity. }
  assert (Hcode' : code_argument (<[lit "code" := PyStr []]> params) = []).
  { unfold code_argument. rewrite lookup_insert_eq. reflexivity. }
  split.
  - rewrite Hcode. reflexivity.
  - unfold execute. rewrite Hcode, Hcode'. reflexivity.
Qed.

Lemma execute_without_code_runs_empty_snippet_witness :
  _maybe_wrap_print Demo.host_prints_2 (code_argument ∅) = Return [] /\
  execute Demo.host_prints_2 (Demo.sid 1) ∅ Demo.sys0
  = execute Demo.host_prints_2 (Demo.sid 1)
      (<[lit "code" := PyStr []]> ∅) Demo.sys0.
Proof.
  exact (execute_without_code_runs_empty_snippet
           Demo.host_prints_2 (Demo.sid 1) ∅ Demo.sys0 eq_refl).
Defined.

(** * Properties of the GSM8K scorer *)

(** ** The matcher *)

Section GroupCharacters.

(** When every item of the group accepts only characters with the property
    [P], the group of a match holds only such characters. *)

Variable P : N -> bool.

Variable it : Re.item.
Variable k : pystr -> option pystr.
Hypothesis Hit : Re.group_within P it.
Hypothesis Hk : forall s g, k s = Some g -> forallb P g = true.

Lemma keep_within (c : N) (g : pystr) :
  Re.accepts it c = true ->
  forallb P g = true ->
  forallb P (Re.keep it c g) = true.
Proof.
  intros Hc Hg. unfold Re.keep.
  destruct (Re.in_group it) eqn:E; [|exact Hg].
  simpl. rewrite (Hit E c Hc). exact Hg.
Qed.

Lemma once_within (s g : pystr) :
  Re.once it k s = Some g -> forallb P g = true.
Proof.
  destruct s as [|c s]; simpl; [discriminate|].
  destruct (Re.accepts it c) eqn:Hc; [|discriminate].
  destruct (k s) as [g'|] eqn:Hks; [|discriminate].
  simpl. intros [= <-]. apply keep_within; [exact Hc|exact (Hk _ _ Hks)].
Qed.

Lemma greedy_within (s g : pystr) :
  Re.greedy it k s = Some g -> forallb P g = true.
Proof.
  revert g. induction s as [|c s IH]; intros g; simpl; [apply Hk|].
  destruct (Re.accepts it c) eqn:Hc; [|apply Hk].
  destruct (Re.greedy it k s) as [g'|]; [|apply Hk].
  intros [= <-]. apply keep_within; [exact Hc|exact (IH g' eq_refl)].
Qed.

Lemma lazy_within (s g : pystr) :
  Re.lazy it k s = Some g -> forallb P g = true.
Proof.
  revert g. induction s as [|c s IH]; intros g; simpl.
  - destruct (k []) as [g'|] eqn:Hks; [|discriminate].
    intros [= <-]. exact (Hk _ _ Hks).
  - destruct (k (c :: s)) as [g'|] eqn:Hks.
    + intros [= <-]. exact (Hk _ _ Hks).
    + destruct (Re.accepts it c) eqn:Hc; [|discriminate].
      destruct (Re.lazy it k s) as [g'|]; [|discriminate].
      simpl. intros [= <-].
      apply keep_within; [exact Hc|exact (IH g' eq_refl)].
Qed.

End GroupCharacters.

Lemma match_here_within (P : N -> bool) (pat : list Re.item) :
  Forall (Re.group_within P) pat ->
  forall s g, Re.match_here pat s = Some g -> forallb P g = true.
Proof.
  induction 1 as [|it pat Hit _ IH]; intros s g; simpl.
  - intros [= <-]. reflexivity.
  - destruct (Re.quantifier it).
    + apply once_within; assumption.
    + apply greedy_within; assumption.
    + apply once_within; [assumption|].
      intros s' g'. apply greedy_within; assumption.
    + apply lazy_within; assumption.
Qed.

Lemma search_within (P : N -> bool) (pat : list Re.item) :
  Forall (Re.group_within P) pat ->
  forall s g, Re.search pat s = Some g -> forallb P g = true.
Proof.
  intros Hpat s. induction s as [|c s IH]; intros g; simpl.
  - destruct (Re.match_here pat []) as [g'|] eqn:E; [|discriminate].
    intros [= <-]. exact (match_here_within P pat Hpat _ _ E).
  - destruct (Re.match_here pat (c :: s)) as [g'|] eqn:E.
    + intros [= <-]. exact (match_here_within P pat Hpat _ _ E).
    + apply IH.
Qed.

Lemma search_here (pat : list Re.item) (s g : pystr) :
  Re.match_here pat s = Some g -> Re.search pat s = Some g.
Proof. intros H. destruct s; simpl; rewrite H; reflexivity. Qed.

(** The two patterns capture characters of the class only. *)
Lemma answer_re_within : Forall (Re.group_within Gsm8k.numclass) Gsm8k.answer_re.
Proof.
  unfold Gsm8k.answer_re, Re.literal. simpl.
  repeat constructor; unfold Re.group_within; simpl;
    solve [discriminate | auto].
Qed.

Lemma strict_re_within : Forall (Re.group_within Gsm8k.numclass) Gsm8k.strict_re.
Proof.
  unfold Gsm8k.strict_re, Re.literal. simpl.
  repeat constructor; unfold Re.group_within; simpl;
    solve [discriminate | auto].
Qed.

(** ** The runs of [findall] *)

Lemma findall_runs_head (class : N -> bool) (c : N) (s : pystr) :
  class c = true -> Re.findall_runs class (c :: s) <> [].
Proof.
  intros Hc. simpl. rewrite Hc.
  destruct s as [|c' s]; [discriminate|].
  destruct (class c'); [|discriminate].
  destruct (Re.findall_runs class (c' :: s)); discriminate.
Qed.

(** The runs, one after the other, are the characters of the class in the
    order of the text. *)
Lemma findall_runs_concat (class : N -> bool) (s : pystr) :
  concat (Re.findall_runs class s) = List.filter class s.
Proof.
  induction s as [|c s IH]; [reflexivity|].
  cbn [Re.findall_runs List.filter].
  destruct (class c) eqn:Hc; [|exact IH].
  destruct s as [|c' s]; [reflexivity|].
  destruct (class c') eqn:Hc'.
  - pose proof (findall_runs_head class c' s Hc') as Hne.
    destruct (Re.findall_runs class (c' :: s)) as [|run runs];
      [contradiction|].
    simpl in *. rewrite IH. reflexivity.
  - simpl in *. rewrite IH. reflexivity.
Qed.

Lemma findall_runs_class (class : N -> bool) (s : pystr) (run : pystr) :
  In run (Re.findall_runs class s) -> forallb class run = true.
Proof.
  intros Hin. apply forallb_forall. intros c Hc.
  assert (H : In c (concat (Re.findall_runs class s))).
  { apply in_concat. exists run. split; assumption. }
  rewrite findall_runs_concat in H. apply filter_In in H. exact (proj2 H).
Qed.

(** ** Cleaning *)

Lemma str_eqb_eq (a b : pystr) : str_eqb a b = true <-> a = b.
Proof.
  revert b. induction a as [|x a IH]; intros [|y b]; simpl;
    try (split; [discriminate|discriminate]); [split; reflexivity|].
  rewrite andb_true_iff, N.eqb_eq, IH. split.
  - intros [-> ->]. reflexivity.
  - intros [= -> ->]. split; reflexivity.
Qed.

Lemma clean_answer_chars (x : pystr) :
  forallb Gsm8k.numclass x = true ->
  forallb Gsm8k.answer_char (Gsm8k.clean x) = true.
Proof.
  intros H. apply forallb_forall. intros c Hc.
  unfold Gsm8k.clean, remove_char in Hc.
  apply filter_In in Hc as [Hc _]. apply filter_In in Hc as [Hc Hcomma].
  pose proof (proj1 (forallb_forall _ _) H c Hc) as Hclass.
  unfold Gsm8k.numclass in Hclass. unfold Gsm8k.answer_char.
  apply negb_true_iff in Hcomma. rewrite Hcomma, orb_false_r in Hclass.
  exact Hclass.
Qed.

Lemma clean_is_remove_commas (x : pystr) :
  forallb Gsm8k.numclass x = true ->
  Gsm8k.clean x = remove_char x 44.
Proof.
  intros H. unfold Gsm8k.clean.
  induction x as [|c x IH]; [reflexivity|].
  simpl in H. apply andb_true_iff in H as [Hc Hx].
  unfold remove_char in *. simpl.
  destruct (c =? 44) eqn:E44; simpl; [exact (IH Hx)|].
  assert (E36 : (c =? 36) = false).
  { apply N.eqb_neq. intros ->. discriminate Hc. }
  rewrite E36. simpl. f_equal. exact (IH Hx).
Qed.

Lemma extract_solution_within :
  forall solution_str method answer,
    Gsm8k.extract_solution solution_str method
    = Gsm8k.Returns (Some answer) ->
    forallb Gsm8k.answer_char answer = true.
Proof.
  intros s method answer. unfold Gsm8k.extract_solution.
  destruct (negb _); [discriminate|].
  destruct (Re.search Gsm8k.answer_re s) as [g|] eqn:Htag.
  { intros [= <-]. apply clean_answer_chars.
    exact (search_within _ _ answer_re_within _ _ Htag). }
  destruct (str_eqb method (lit "strict")).
  - destruct (Re.search Gsm8k.strict_re s) as [g|] eqn:Hstrict;
      [|discriminate].
    intros [= <-]. apply clean_answer_chars.
    exact (search_within _ _ strict_re_within _ _ Hstrict).
  - destruct (List.find _ _) as [num|] eqn:Hfind; [|discriminate].
    intros [= <-]. apply clean_answer_chars.
    apply find_some in Hfind as [Hin _]. apply in_rev in Hin.
    exact (findall_runs_class _ _ _ Hin).
Qed.

(** X16.  Whatever the text and the method, an extracted answer holds only
    digits, minus signs and dots: never a comma, a space or a letter. *)
Theorem extract_solution_answer_chars :
  forall solution_str method answer,
    Gsm8k.extract_solution solution_str method
    = Gsm8k.Returns (Some answer) ->
    forallb Gsm8k.answer_char answer = true.
Proof. exact extract_solution_within. Qed.

Lemma extract_solution_answer_chars_witness :
  forallb Gsm8k.answer_char (lit "-1234.5") = true.
Proof.
  exact (extract_solution_answer_chars
           (lit "The total is <Answer> -1,234.5 dollars</ANSWER>.")
           (lit "strict") (lit "-1234.5") eq_refl).
Defined.

(** ** The assertion on [method] *)

Lemma method_checked (method : pystr) :
  negb (existsb (str_eqb method) [lit "strict"; lit "flexible"]) = true
  <-> method <> lit "strict" /\ method <> lit "flexible".
Proof.
  simpl. rewrite orb_false_r, negb_true_iff, orb_false_iff.
  split; intros [H1 H2]; split.
  - intros E. apply str_eqb_eq in E. congruence.
  - intros E. apply str_eqb_eq in E. congruence.
  - destruct (str_eqb method (lit "strict")) eqn:E; [|reflexivity].
    apply str_eqb_eq in E. contradiction.
  - destruct (str_eqb method (lit "flexible")) eqn:E; [|reflexivity].
    apply str_eqb_eq in E. contradiction.
Qed.

(** X17.  [extract_solution] fails its assertion exactly when the method
    is neither [strict] nor [flexible], whatever the text holds, and
    [compute_score] fails with it. *)
Theorem extract_solution_asserts_method :
  forall solution_str ground_truth method format_score score,
    (Gsm8k.extract_solution solution_str method = Gsm8k.AssertionError
     <-> method <> lit "strict" /\ method <> lit "flexible")
    /\
    (Gsm8k.compute_score solution_str ground_truth method format_score score
     = Gsm8k.AssertionError
     <-> method <> lit "strict" /\ method <> lit "flexible").
Proof.
  intros s gt method fs sc.
  assert (Hex : Gsm8k.extract_solution s method = Gsm8k.AssertionError
                <-> method <> lit "strict" /\ method <> lit "flexible").
  { rewrite <- method_checked. unfold Gsm8k.extract_solution.
    destruct (negb _); [split; reflexivity|].
    split; [|discriminate].
    destruct (Re.search Gsm8k.answer_re s); [discriminate|].
    destruct (str_eqb method (lit "strict")).
    - destruct (Re.search Gsm8k.strict_re s); discriminate.
    - destruct (List.find _ _); discriminate. }
  split; [exact Hex|].
  rewrite <- Hex. unfold Gsm8k.compute_score.
  destruct (Gsm8k.extract_solution s method) as [[answer|]|].
  - destruct (str_eqb answer gt); split; discriminate.
  - split; discriminate.
  - split; reflexivity.
Qed.

Example extract_solution_asserts_before_reading :
  Gsm8k.extract_solution (lit "<answer>7</answer>") (lit "Strict")
  = Gsm8k.AssertionError.
Proof. reflexivity. Qed.

(** ** Strict mode *)

Lemma once_inv (it : Re.item) (k : pystr -> option pystr) (s g : pystr) :
  Re.once it k s = Some g ->
  exists c s' g',
    s = c :: s' /\ Re.accepts it c = true /\ k s' = Some g' /\
    g = Re.keep it c g'.
Proof.
  destruct s as [|c s']; simpl; [discriminate|].
  destruct (Re.accepts it c) eqn:Hc; [|discriminate].
  destruct (k s') as [g'|] eqn:Hk; [|discriminate].
  simpl. intros [= <-]. exists c, s', g'. auto.
Qed.

Lemma strict_re_needs_backslash (s : pystr) :
  ~ In chr_backslash s -> Re.match_here Gsm8k.strict_re s = None.
Proof.
  intros Hno.
  destruct (Re.match_here Gsm8k.strict_re s) as [g|] eqn:E; [|reflexivity].
  exfalso. apply Hno.
  unfold Gsm8k.strict_re, Re.literal in E. simpl in E.
  apply once_inv in E as (c1 & s1 & g1 & -> & _ & E & _).
  apply once_inv in E as (c2 & s2 & g2 & -> & _ & E & _).
  apply once_inv in E as (c3 & s3 & g3 & -> & _ & E & _).
  apply once_inv in E as (c4 & s4 & g4 & -> & _ & E & _).
  apply once_inv in E as (c5 & s5 & g5 & -> & Hc & _).
  cbn [Re.accepts] in Hc. apply N.eqb_eq in Hc. subst c5. simpl. auto 6.
Qed.

Lemma ignorecase_lt (c : N) : Re.ignorecase 60 c = true -> c = 60.
Proof.
  unfold Re.ignorecase. destruct (N.eqb_spec c 60) as [->|_]; [reflexivity|].
  change (97 <=? 60) with false. change (60 =? 105) with false.
  change (60 =? 107) with false. change (60 =? 115) with false.
  cbn [andb orb]. discriminate.
Qed.

Lemma match_here_head_once (it : Re.item) (pat : list Re.item)
      (s g : pystr) :
  Re.quantifier it = Re.One ->
  Re.match_here (it :: pat) s = Some g ->
  exists c s', s = c :: s' /\ Re.accepts it c = true.
Proof.
  intros Hq. cbn [Re.match_here]. rewrite Hq. intros E.
  apply once_inv in E as (c & s' & g' & -> & Hc & _).
  exists c, s'. auto.
Qed.

Lemma answer_re_head :
  exists pat,
    Gsm8k.answer_re = Re.mkItem (Re.ignorecase 60) Re.One false :: pat.
Proof. eexists. reflexivity. Qed.

Lemma answer_re_needs_lt (s : pystr) :
  ~ In 60 s -> Re.match_here Gsm8k.answer_re s = None.
Proof.
  intros Hno.
  destruct (Re.match_here Gsm8k.answer_re s) as [g|] eqn:E; [|reflexivity].
  exfalso. apply Hno.
  destruct answer_re_head as [pat Hpat]. rewrite Hpat in E.
  apply match_here_head_once in E as (c & s' & -> & Hc); [|reflexivity].
  cbn [Re.accepts] in Hc. apply ignorecase_lt in Hc. subst c.
  left. reflexivity.
Qed.

Lemma search_none (pat : list Re.item) (absent : N) (s : pystr) :
  (forall t, ~ In absent t -> Re.match_here pat t = None) ->
  ~ In absent s -> Re.search pat s = None.
Proof.
  intros Hpat. induction s as [|c s IH]; intros Hno; simpl.
  - rewrite (Hpat [] Hno). reflexivity.
  - rewrite (Hpat (c :: s) Hno). apply IH. intros H. apply Hno.
    right. exact H.
Qed.

(** X18.  In strict mode a text without [<] and without a backslash gives
    no answer and the score [0], whatever numbers it holds: the pattern of
    the source asks for a backslash after the four hashes. *)
Theorem strict_needs_backslash :
  forall solution_str ground_truth format_score score,
    contains_char solution_str 60 = false ->
    contains_char solution_str chr_backslash = false ->
    Gsm8k.extract_solution solution_str (lit "strict") = Gsm8k.Returns None
    /\
    Gsm8k.compute_score solution_str ground_truth (lit "strict")
                        format_score score
    = Gsm8k.Returns (Gsm8k.Int 0).
Proof.
  intros s gt fs sc Hlt Hbs.
  apply contains_char_false_iff in Hlt, Hbs.
  assert (Hex : Gsm8k.extract_solution s (lit "strict")
                = Gsm8k.Returns None).
  { unfold Gsm8k.extract_solution.
    change (negb (existsb (str_eqb (lit "strict"))
                          [lit "strict"; lit "flexible"])) with false.
    cbn iota.
    rewrite (search_none Gsm8k.answer_re 60 s answer_re_needs_lt Hlt).
    change (str_eqb (lit "strict") (lit "strict")) with true. cbn iota.
    rewrite (search_none Gsm8k.strict_re chr_backslash s
                         strict_re_needs_backslash Hbs).
    reflexivity. }
  split; [exact Hex|].
  unfold Gsm8k.compute_score. rewrite Hex. reflexivity.
Qed.

(** The reference format of the data set, [#### 42] after the reasoning. *)
Lemma strict_needs_backslash_witness :
  Gsm8k.extract_solution (lit "6 * 7 = 42 #### 42") (lit "strict")
  = Gsm8k.Returns None
  /\
  Gsm8k.compute_score (lit "6 * 7 = 42 #### 42") (lit "42") (lit "strict")
                      (Gsm8k.Float 0) (Gsm8k.Float 1)
  = Gsm8k.Returns (Gsm8k.Int 0).
Proof.
  exact (strict_needs_backslash
           (lit "6 * 7 = 42 #### 42") (lit "42")
           (Gsm8k.Float 0) (Gsm8k.Float 1) eq_refl eq_refl).
Defined.

(** ** Scoring *)

(** X19.  A ground truth that holds any character other than a digit, a
    minus sign or a dot (a comma, a space, a unit) is never matched: the
    score is [0] or [format_score], or the assertion fails. *)
Theorem compute_score_never_matches_other_chars :
  forall solution_str ground_truth method format_score score,
    existsb (fun c => negb (Gsm8k.answer_char c)) ground_truth = true ->
    Gsm8k.compute_score solution_str ground_truth method format_score score
    = Gsm8k.AssertionError
    \/
    Gsm8k.compute_score solution_str ground_truth method format_score score
    = Gsm8k.Returns (Gsm8k.Int 0)
    \/
    Gsm8k.compute_score solution_str ground_truth method format_score score
    = Gsm8k.Returns format_score.
Proof.
  intros s gt method fs sc Hother. unfold Gsm8k.compute_score.
  destruct (Gsm8k.extract_solution s method) as [[answer|]|] eqn:Hex;
    [|right; left; reflexivity|left; reflexivity].
  right. right.
  destruct (str_eqb answer gt) eqn:E; [|reflexivity].
  apply str_eqb_eq in E. subst gt.
  pose proof (extract_solution_within s method answer Hex) as Hchars.
  apply existsb_exists in Hother as (c & Hc & Hneg).
  rewrite (proj1 (forallb_forall _ _) Hchars c Hc) in Hneg. discriminate.
Qed.

Lemma compute_score_never_matches_other_chars_witness :
  Gsm8k.compute_score (lit "<answer>1,234</answer>") (lit "1,234")
                      (lit "strict") (Gsm8k.Float 0) (Gsm8k.Float 1)
  = Gsm8k.AssertionError
  \/
  Gsm8k.compute_score (lit "<answer>1,234</answer>") (lit "1,234")
                      (lit "strict") (Gsm8k.Float 0) (Gsm8k.Float 1)
  = Gsm8k.Returns (Gsm8k.Int 0)
  \/
  Gsm8k.compute_score (lit "<answer>1,234</answer>") (lit "1,234")
                      (lit "strict") (Gsm8k.Float 0) (Gsm8k.Float 1)
  = Gsm8k.Returns (Gsm8k.Float 0).
Proof.
  exact (compute_score_never_matches_other_chars
           (lit "<answer>1,234</answer>") (lit "1,234") (lit "strict")
           (Gsm8k.Float 0) (Gsm8k.Float 1) eq_refl).
Defined.

(** ** Flexible mode *)

Lemma numclass_cases (c : N) :
  Gsm8k.numclass c = true ->
  In c [44; 45; 46; 48; 49; 50; 51; 52; 53; 54; 55; 56; 57].
Proof.
  unfold Gsm8k.numclass. intros H.
  apply orb_true_iff in H as [H|H];
    [apply orb_true_iff in H as [H|H];
     [apply orb_true_iff in H as [H|H]|]|].
  - apply N.eqb_eq in H. subst. simpl. auto 20.
  - apply andb_true_iff in H as [H1 H2].
    apply N.leb_le in H1. apply N.leb_le in H2.
    assert (Hc : c = 48 \/ c = 49 \/ c = 50 \/ c = 51 \/ c = 52 \/ c = 53
                 \/ c = 54 \/ c = 55 \/ c = 56 \/ c = 57) by lia.
    simpl. intuition auto 20.
  - apply N.eqb_eq in H. subst. simpl. auto 20.
  - apply N.eqb_eq in H. subst. simpl. auto 20.
Qed.

Lemma numclass_not_space (c : N) :
  Gsm8k.numclass c = true -> isspace c = false.
Proof.
  intros H. apply numclass_cases in H. simpl in H.
  repeat (destruct H as [<-|H]; [reflexivity|]). destruct H.
Qed.

(** A run of the class has no whitespace to trim. *)
Lemma strip_class (run : pystr) :
  forallb Gsm8k.numclass run = true -> strip run = run.
Proof.
  intros H.
  assert (Hl : forall t, forallb Gsm8k.numclass t = true -> lstrip t = t).
  { intros [|c t] Ht; [reflexivity|]. apply lstrip_fixed.
    simpl in Ht. apply andb_true_iff in Ht as [Hc _].
    exact (numclass_not_space c Hc). }
  unfold strip, rstrip. rewrite (Hl run H).
  rewrite Hl by (rewrite forallb_rev; exact H).
  apply rev_involutive.
Qed.

Lemma lstrip_char_keeps (c x : N) (s : pystr) :
  In x s -> x <> c -> In x (lstrip_char c s).
Proof.
  intros Hin Hne. induction s as [|y s IH]; [destruct Hin|].
  simpl. destruct (N.eqb_spec y c) as [->|Hy]; [|exact Hin].
  destruct Hin as [->|Hin]; [contradiction|exact (IH Hin)].
Qed.

(** [s.strip(c)] is empty exactly when [s] holds nothing but [c]. *)
Lemma strip_char_nil_iff (c : N) (s : pystr) :
  strip_char c s = [] <-> forallb (fun x => x =? c) s = true.
Proof.
  split.
  - intros H. apply forallb_forall. intros x Hx.
    destruct (N.eqb_spec x c) as [_|Hne]; [reflexivity|].
    exfalso.
    assert (Hin : In x (strip_char c s)).
    { unfold strip_char. rewrite <- in_rev.
      apply lstrip_char_keeps; [|exact Hne]. rewrite <- in_rev.
      apply lstrip_char_keeps; assumption. }
    rewrite H in Hin. destruct Hin.
  - intros H.
    assert (Hl : lstrip_char c s = []).
    { induction s as [|y s IH]; [reflexivity|].
      simpl in *. apply andb_true_iff in H as [Hy Hs].
      rewrite Hy. exact (IH Hs). }
    unfold strip_char. rewrite Hl. reflexivity.
Qed.

Lemma find_none_iff {A} (f : A -> bool) (l : list A) :
  List.find f l = None <-> (forall x, In x l -> f x = false).
Proof.
  split; [apply find_none|].
  induction l as [|y l IH]; intros H; [reflexivity|].
  simpl. rewrite (H y (or_introl eq_refl)).
  apply IH. intros x Hx. apply H. right. exact Hx.
Qed.

(** The test of the loop over the runs fails exactly on the runs of
    dots. *)
Lemma flexible_test (run : pystr) :
  forallb Gsm8k.numclass run = true ->
  (truthy (strip_char 46 (strip run)) = false
   <-> forallb (fun x => x =? 46) run = true).
Proof.
  intros H. rewrite (strip_class run H), <- strip_char_nil_iff.
  destruct (strip_char 46 run); simpl; split; congruence.
Qed.

Lemma flexible_none_iff (s : pystr) :
  List.find (fun num => truthy (strip_char 46 (strip num)))
            (rev (Re.findall_runs Gsm8k.numclass s)) = None
  <-> forallb (fun c => negb (Gsm8k.numclass c) || (c =? 46)) s = true.
Proof.
  rewrite find_none_iff. split.
  - intros H. apply forallb_forall. intros c Hc.
    destruct (Gsm8k.numclass c) eqn:Hclass; [|reflexivity]. simpl.
    assert (Hin : In c (concat (Re.findall_runs Gsm8k.numclass s))).
    { rewrite findall_runs_concat. apply filter_In. auto. }
    apply in_concat in Hin as (run & Hrun & Hcrun).
    pose proof (findall_runs_class _ _ _ Hrun) as Hrc.
    specialize (H run (proj1 (in_rev _ _) Hrun)).
    apply (flexible_test run Hrc) in H.
    exact (proj1 (forallb_forall _ _) H c Hcrun).
  - intros H run Hrun. apply in_rev in Hrun.
    pose proof (findall_runs_class _ _ _ Hrun) as Hrc.
    apply (flexible_test run Hrc). apply forallb_forall. intros c Hc.
    assert (Hin : In c (List.filter Gsm8k.numclass s)).
    { rewrite <- findall_runs_concat. apply in_concat. exists run. auto. }
    apply filter_In in Hin as [Hcs Hclass].
    pose proof (proj1 (forallb_forall _ _) H c Hcs) as Hd.
    cbv beta in Hd. rewrite Hclass in Hd. exact Hd.
Qed.

(** X20.  Without a match of the answer tag, flexible mode gives no answer
    exactly when the text holds no digit, no minus sign and no comma: dots
    alone are not a number, but a lone comma or minus sign is taken. *)
Theorem flexible_gives_up_only_without_numbers :
  forall solution_str,
    Re.search Gsm8k.answer_re solution_str = None ->
    (Gsm8k.extract_solution solution_str (lit "flexible")
     = Gsm8k.Returns None
     <-> forallb (fun c => negb (Gsm8k.numclass c) || (c =? 46))
                 solution_str = true).
Proof.
  intros s Htag. rewrite <- flexible_none_iff.
  unfold Gsm8k.extract_solution.
  change (negb (existsb (str_eqb (lit "flexible"))
                        [lit "strict"; lit "flexible"])) with false.
  cbn iota. rewrite Htag.
  change (str_eqb (lit "flexible") (lit "strict")) with false. cbn iota.
  destruct (List.find _ _); split; congruence.
Qed.

Lemma flexible_gives_up_only_without_numbers_witness :
  Gsm8k.extract_solution (lit "I do not know... sorry.") (lit "flexible")
  = Gsm8k.Returns None.
Proof.
  apply (flexible_gives_up_only_without_numbers
           (lit "I do not know... sorry.") eq_refl).
  reflexivity.
Defined.

Example flexible_takes_lone_comma :
  Gsm8k.extract_solution (lit "well, no") (lit "flexible")
  = Gsm8k.Returns (Some []).
Proof. reflexivity. Qed.

(** ** The answer tag *)

Lemma ignorecase_refl (l : N) : Re.ignorecase l l = true.
Proof. unfold Re.ignorecase. rewrite N.eqb_refl. reflexivity. Qed.

(** A literal of the pattern takes its own text. *)
Lemma match_literal (ci : bool) (text : pystr) (pat : list Re.item)
      (s : pystr) :
  Re.match_here (Re.literal ci text ++ pat) (text ++ s)
  = Re.match_here pat s.
Proof.
  induction text as [|l text IH]; [reflexivity|].
  cbn [Re.literal List.map app Re.match_here Re.quantifier Re.once
       Re.accepts].
  assert (Hl : (if ci then Re.ignorecase l else N.eqb l) l = true).
  { destruct ci; [apply ignorecase_refl|apply N.eqb_refl]. }
  rewrite Hl. fold (Re.literal ci text). rewrite IH.
  destruct (Re.match_here pat s); reflexivity.
Qed.

(** A literal captures nothing. *)
Lemma match_literal_group (ci : bool) (text s g : pystr) :
  Re.match_here (Re.literal ci text) s = Some g -> g = [].
Proof.
  intros H.
  assert (Hw : forallb (fun _ => false) g = true).
  { apply (match_here_within (fun _ => false) (Re.literal ci text))
      with (s := s); [|exact H].
    unfold Re.literal. apply Forall_map. apply List.Forall_forall.
    intros l _. unfold Re.group_within. simpl. discriminate. }
  destruct g; [reflexivity|discriminate].
Qed.

(** A greedy repetition takes a whole run when the rest of the pattern
    matches right after it. *)
Lemma greedy_run (it : Re.item) (k : pystr -> option pystr)
      (run tail g : pystr) :
  forallb (Re.accepts it) run = true ->
  match tail with [] => True | c :: _ => Re.accepts it c = false end ->
  k tail = Some g ->
  Re.greedy it k (run ++ tail)
  = Some (if Re.in_group it then run ++ g else g).
Proof.
  intros Hrun Htail Hk. induction run as [|c run IH].
  - simpl. destruct tail as [|c t]; simpl.
    + rewrite Hk. destruct (Re.in_group it); reflexivity.
    + rewrite Htail, Hk. destruct (Re.in_group it); reflexivity.
  - simpl in Hrun. apply andb_true_iff in Hrun as [Hc Hrun].
    simpl. rewrite Hc, (IH Hrun). unfold Re.keep.
    destruct (Re.in_group it); reflexivity.
Qed.

(** A lazy [.*?] before a literal finds the literal when it is there. *)
Lemma lazy_finds_literal (it : Re.item) (ci : bool) (text rest post : pystr) :
  (forall c, Re.accepts it c = true) ->
  Re.in_group it = false ->
  Re.lazy it (Re.match_here (Re.literal ci text)) (rest ++ text ++ post)
  = Some [].
Proof.
  intros Hany Hgroup. induction rest as [|c rest IH].
  - assert (Hm : Re.match_here (Re.literal ci text) (text ++ post)
                 = Some []).
    { rewrite <- (app_nil_r (Re.literal ci text)). apply match_literal. }
    simpl. destruct (text ++ post); simpl; rewrite Hm; reflexivity.
  - cbn [app Re.lazy].
    destruct (Re.match_here (Re.literal ci text) (c :: rest ++ text ++ post))
      as [g|] eqn:E.
    + rewrite (match_literal_group _ _ _ _ E). reflexivity.
    + rewrite Hany, IH. unfold Re.keep. rewrite Hgroup. reflexivity.
Qed.

Lemma answer_tag_match (ws n rest post : pystr) :
  forallb isspace ws = true ->
  n <> [] ->
  forallb Gsm8k.numclass n = true ->
  match rest with [] => True | c :: _ => Gsm8k.numclass c = false end ->
  Re.match_here Gsm8k.answer_re
    (lit "<answer>" ++ ws ++ n ++ rest ++ lit "</answer>" ++ post)
  = Some n.
Proof.
  intros Hws Hn Hclass Hrest.
  unfold Gsm8k.answer_re. rewrite match_literal.
  set (closing := Re.literal true (lit "</answer>")).
  cbn [app Re.match_here Re.quantifier].
  destruct n as [|c n]; [contradiction|].
  simpl in Hclass. apply andb_true_iff in Hclass as [Hc Hclass].
  rewrite (greedy_run (Re.mkItem isspace Re.Star false) _ ws
                      ((c :: n) ++ rest ++ lit "</answer>" ++ post)
                      (c :: n) Hws).
  - reflexivity.
  - simpl. exact (numclass_not_space c Hc).
  - cbn [app Re.once Re.accepts]. rewrite Hc.
    rewrite (greedy_run (Re.mkItem Gsm8k.numclass Re.Plus true) _ n
                        (rest ++ lit "</answer>" ++ post) []).
    + cbn [Re.in_group option_map Re.keep]. rewrite app_nil_r. reflexivity.
    + exact Hclass.
    + destruct rest as [|r rest]; [reflexivity|exact Hrest].
    + unfold closing. apply lazy_finds_literal; reflexivity.
Qed.

Lemma str_eqb_refl (a : pystr) : str_eqb a a = true.
Proof. apply str_eqb_eq. reflexivity. Qed.

(** X21.  A text that opens with the answer tag, then whitespace, then a
    number of the class followed by anything up to the closing tag, gives
    that number without its commas in both modes, and the full score when
    it is the ground truth. *)
Theorem answer_tag_round_trip :
  forall ws n rest post method format_score score,
    forallb isspace ws = true ->
    n <> [] ->
    forallb Gsm8k.numclass n = true ->
    match rest with [] => True | c :: _ => Gsm8k.numclass c = false end ->
    method = lit "strict" \/ method = lit "flexible" ->
    Gsm8k.extract_solution
      (lit "<answer>" ++ ws ++ n ++ rest ++ lit "</answer>" ++ post) method
    = Gsm8k.Returns (Some (remove_char n 44))
    /\
    Gsm8k.compute_score
      (lit "<answer>" ++ ws ++ n ++ rest ++ lit "</answer>" ++ post)
      (remove_char n 44) method format_score score
    = Gsm8k.Returns score.
Proof.
  intros ws n rest post method fs sc Hws Hn Hclass Hrest Hmethod.
  assert (Hex : Gsm8k.extract_solution
                  (lit "<answer>" ++ ws ++ n ++ rest ++ lit "</answer>"
                   ++ post) method
                = Gsm8k.Returns (Some (remove_char n 44))).
  { unfold Gsm8k.extract_solution.
    assert (Hm : negb (existsb (str_eqb method)
                               [lit "strict"; lit "flexible"]) = false).
    { destruct Hmethod as [-> | ->]; reflexivity. }
    rewrite Hm.
    rewrite (search_here _ _ _
               (answer_tag_match ws n rest post Hws Hn Hclass Hrest)).
    rewrite (clean_is_remove_commas n Hclass). reflexivity. }
  split; [exact Hex|].
  unfold Gsm8k.compute_score. rewrite Hex, str_eqb_refl. reflexivity.
Qed.

Lemma answer_tag_round_trip_witness :
  Gsm8k.extract_solution
    (lit "<answer>" ++ [32; chr_LF] ++ lit "1,234.50" ++ lit " dollars"
     ++ lit "</answer>" ++ lit " Done.")
    (lit "flexible")
  = Gsm8k.Returns (Some (lit "1234.50"))
  /\
  Gsm8k.compute_score
    (lit "<answer>" ++ [32; chr_LF] ++ lit "1,234.50" ++ lit " dollars"
     ++ lit "</answer>" ++ lit " Done.")
    (lit "1234.50") (lit "flexible") (Gsm8k.Float 0) (Gsm8k.Float 1)
  = Gsm8k.Returns (Gsm8k.Float 1).
Proof.
  exact (answer_tag_round_trip
           [32; chr_LF] (lit "1,234.50") (lit " dollars") (lit " Done.")
           (lit "flexible") (Gsm8k.Float 0) (Gsm8k.Float 1)
           eq_refl ltac:(discriminate) eq_refl eq_refl
           (or_intror eq_refl)).
Defined.

(** ** The last number *)

Lemma findall_runs_none (class : N -> bool) (s : pystr) :
  forallb (fun c => negb (class c)) s = true ->
  Re.findall_runs class s = [].
Proof.
  induction s as [|c s IH]; [reflexivity|].
  cbn [forallb Re.findall_runs]. intros H.
  apply andb_true_iff in H as [Hc Hs]. apply negb_true_iff in Hc.
  rewrite Hc. exact (IH Hs).
Qed.

Lemma findall_runs_cons (class : N -> bool) (c : N) (s : pystr) :
  Re.findall_runs class (c :: s)
  = if class c then
      match s with
      | c' :: _ =>
          if class c' then
            match Re.findall_runs class s with
            | run :: runs => (c :: run) :: runs
            | [] => [[c]]
            end
          else [c] :: Re.findall_runs class s
      | [] => [[c]]
      end
    else Re.findall_runs class s.
Proof. reflexivity. Qed.

(** A run followed by nothing of the class is the only run. *)
Lemma findall_runs_tail (class : N -> bool) (n after : pystr) :
  n <> [] ->
  forallb class n = true ->
  forallb (fun c => negb (class c)) after = true ->
  Re.findall_runs class (n ++ after) = [n].
Proof.
  intros Hn Hclass Hafter. induction n as [|c n IH]; [contradiction|].
  cbn [forallb] in Hclass. apply andb_true_iff in Hclass as [Hc Hclass].
  cbn [app Re.findall_runs]. rewrite Hc.
  destruct n as [|c' n].
  - cbn [app]. destruct after as [|a after]; [reflexivity|].
    pose proof Hafter as Ha. cbn [forallb] in Ha.
    apply andb_true_iff in Ha as [Ha _]. apply negb_true_iff in Ha.
    rewrite Ha, (findall_runs_none class (a :: after) Hafter).
    reflexivity.
  - cbn [forallb] in Hclass. pose proof Hclass as Hcc.
    apply andb_true_iff in Hcc as [Hc' _].
    cbn [app]. rewrite Hc'. cbn [app] in IH.
    rewrite IH by (discriminate || exact Hclass). reflexivity.
Qed.

(** A character outside the class separates the runs before it from the
    runs after it. *)
Lemma findall_runs_app_sep (class : N -> bool) (before : pystr) (x : N)
      (t : pystr) :
  class x = false ->
  Re.findall_runs class (before ++ x :: t)
  = Re.findall_runs class before ++ Re.findall_runs class t.
Proof.
  intros Hx. induction before as [|c before IH].
  - change ([] ++ x :: t) with (x :: t).
    rewrite findall_runs_cons, Hx. reflexivity.
  - change ((c :: before) ++ x :: t) with (c :: (before ++ x :: t)).
    rewrite (findall_runs_cons class c (before ++ x :: t)).
    rewrite (findall_runs_cons class c before).
    destruct (class c); [|exact IH].
    destruct before as [|c' before].
    + change ([] ++ x :: t) with (x :: t). cbv iota. rewrite Hx.
      rewrite findall_runs_cons, Hx. reflexivity.
    + change ((c' :: before) ++ x :: t) with (c' :: (before ++ x :: t))
        in *.
      cbv iota. destruct (class c') eqn:Hc'.
      * rewrite IH.
        pose proof (findall_runs_head class c' before Hc') as Hne.
        destruct (Re.findall_runs class (c' :: before)) as [|run runs];
          [contradiction|reflexivity].
      * rewrite IH. reflexivity.
Qed.

(** X22.  Without a match of the answer tag, flexible mode answers with the
    last run of digits, dots, commas and minus signs that is not made of
    dots only, commas removed: a dot that ends the sentence stays in the
    answer. *)
Theorem flexible_takes_last_number :
  forall before x n after,
    Re.search Gsm8k.answer_re (before ++ x :: n ++ after) = None ->
    Gsm8k.numclass x = false ->
    forallb Gsm8k.numclass n = true ->
    existsb (fun c => negb (c =? 46)) n = true ->
    forallb (fun c => negb (Gsm8k.numclass c)) after = true ->
    Gsm8k.extract_solution (before ++ x :: n ++ after) (lit "flexible")
    = Gsm8k.Returns (Some (remove_char n 44)).
Proof.
  intros before x n after Htag Hx Hclass Hnum Hafter.
  assert (Hn : n <> []) by (intros ->; discriminate).
  unfold Gsm8k.extract_solution.
  change (negb (existsb (str_eqb (lit "flexible"))
                        [lit "strict"; lit "flexible"])) with false.
  cbn iota. rewrite Htag.
  change (str_eqb (lit "flexible") (lit "strict")) with false. cbn iota.
  rewrite (findall_runs_app_sep _ before x (n ++ after) Hx).
  rewrite (findall_runs_tail _ n after Hn Hclass Hafter).
  rewrite rev_app_distr. cbn [rev app List.find].
  assert (Htest : truthy (strip_char 46 (strip n)) = true).
  { destruct (truthy (strip_char 46 (strip n))) eqn:E; [reflexivity|].
    apply (flexible_test n Hclass) in E.
    apply existsb_exists in Hnum as (c & Hc & Hdot).
    rewrite (proj1 (forallb_forall _ _) E c Hc) in Hdot. discriminate. }
  rewrite Htest, (clean_is_remove_commas n Hclass). reflexivity.
Qed.

(** The sentence [... is 1,042.] gives [1042.], which is not the ground
    truth [1042]. *)
Lemma flexible_takes_last_number_witness :
  Gsm8k.extract_solution
    (lit "3 boxes of 347 and 1 more, so the total is" ++ 32 :: lit "1,042."
     ++ []) (lit "flexible")
  = Gsm8k.Returns (Some (lit "1042.")).
Proof.
  exact (flexible_takes_last_number
           (lit "3 boxes of 347 and 1 more, so the total is") 32
           (lit "1,042.") [] eq_refl eq_refl eq_refl eq_refl eq_refl).
Defined.
